(** * rta-lib: biquad coefficient design and the YIN MEX entry point

    A shallow embedding of [src/rta_biquad.c], of [mexFunction] in
    [src/matlab/rta_mex_yin.c] and of the struct-based complex
    operations of [src/rta_complex.h], with the properties the design
    document states about them and further properties read off the code.

    The C code is written against the configurable scalar [rta_real_t]
    and the macros [rta_sin], [rta_cos], [rta_sqrt] of [rta_math.h]; the
    headers that fix them are not part of the sources.  The embedding
    keeps that parameter: the functions are written once over an
    interface of arithmetic operations, one operation per C operator, and
    the interface is instantiated below at IEEE binary64 (primitive
    floats, which evaluate) and at the real numbers (the arithmetic the
    cookbook formulae are derived in).  One operation per operator is the
    build in which [rta_real_t] is [double], where the literals [2.],
    [0.5] and [M_PI] have the type of the other operand; it is also the
    numerical contract of the design document, which asks for every step
    of a design to be carried out in one precision. *)

From Stdlib Require Import PrimFloat FloatOps SpecFloat.
From Stdlib Require FloatAxioms.
From Stdlib Require Import ZArith List String Bool Lia.
From Stdlib Require Import Reals Lra.
Import ListNotations.

(* ================================================================== *)
(** * The scalar interface *)

(** A C floating type with the operators the sources apply to it; it is
    used for [rta_real_t] and, in the MEX entry point, for [double] as
    well.  [rneb] is the C comparison [!=]; [rlt] is the order the
    documented parameter domains ([q > 0], [0 < f0 < 1], [gain > 0]) are
    stated in.  The constants are the literals [0.], [1.], [2.] and
    [0.5]; [rta_sqrt] is the square root of the type ([sqrt] for
    [double]). *)
Class RtaReal (T : Type) : Type := {
  r0 : T;
  r1 : T;
  r2 : T;
  rhalf : T;
  radd : T -> T -> T;
  rsub : T -> T -> T;
  rmul : T -> T -> T;
  rdiv : T -> T -> T;
  ropp : T -> T;
  rta_sqrt : T -> T;
  rneb : T -> T -> bool;
  rlt : T -> T -> Prop
}.

(** [rta_math.h]: the constant [M_PI] and the macros [rta_sin], [rta_cos]
    at the precision of [rta_real_t]. *)
Class RtaMath (T : Type) `{RtaReal T} : Type := {
  M_PI : T;
  rta_sin : T -> T;
  rta_cos : T -> T
}.

Declare Scope rta_scope.
Delimit Scope rta_scope with rta.
Infix "+" := radd : rta_scope.
Infix "-" := rsub : rta_scope.
Infix "*" := rmul : rta_scope.
Infix "/" := rdiv : rta_scope.
Notation "- x" := (ropp x) : rta_scope.
Infix "<" := rlt : rta_scope.

(** The identities of the arithmetic that the relational properties rest
    on.  Each of them holds of IEEE arithmetic as well as of the reals:
    the only value that compares equal to [1.] is [1.], multiplication
    commutes, [1.] is neutral, and scaling by [0.5] and dividing by [2.]
    round the same exact quotient. *)
Class RtaRealLaws (T : Type) `{RtaReal T} : Prop := {
  rneb_one : forall x : T, rneb x r1 = false <-> x = r1;
  rmul_comm : forall x y : T, (x * y = y * x)%rta;
  rmul_1_l : forall x : T, (r1 * x = x)%rta;
  rmul_half : forall x : T, (x * rhalf = x / r2)%rta
}.

(* ================================================================== *)
(** * Coefficient buffers *)

(** The formula functions receive [rta_real_t * b] and [rta_real_t * a]
    and store through them at constant indices.  A buffer is the cells
    reachable from the pointer; the two buffers of a call are distinct
    objects, as every caller in the library passes them. *)
Definition buf (T : Type) : Type := nat -> T.

Definition store {T : Type} (p : buf T) (i : nat) (v : T) : buf T :=
  fun j => if Nat.eqb j i then v else p j.

Notation "p .[ i <- v ]" := (store p i v)
  (at level 1, i at level 99, v at level 99, format "p .[ i  <-  v ]").

(* ================================================================== *)
(** * rta_biquad.c *)

Section Biquad.

Context {T : Type} `{RM : RtaMath T}.
Local Open Scope rta_scope.

(** The terms the gain-less formulae share, under the names the design
    document gives them: [w0 = pi f0], [alpha = sin w0 / (2 q)],
    [c = cos w0], [a0_inv = 1 / (1 + alpha)]. *)
Definition w0_of (f0 : T) : T := M_PI * f0.
Definition alpha_of (f0 q : T) : T := rta_sin (w0_of f0) / (r2 * q).
Definition c_of (f0 : T) : T := rta_cos (w0_of f0).
Definition a0_inv_of (f0 q : T) : T := r1 / (r1 + alpha_of f0 q).

(** LPF: H(s) = 1 / (s^2 + s/Q + 1) *)
Definition rta_biquad_lowpass_coefs (b a : buf T) (f0 q : T)
  : buf T * buf T :=
  let w0 := M_PI * f0 in
  let alpha := rta_sin w0 / (r2 * q) in
  let c := rta_cos w0 in
  let a0_inv := r1 / (r1 + alpha) in
  let a := a.[0 <- (- r2 * c) * a0_inv] in
  let a := a.[1 <- (r1 - alpha) * a0_inv] in
  let b := b.[0 <- ((r1 - c) * rhalf) * a0_inv] in
  let b := b.[1 <- (r1 - c) * a0_inv] in
  let b := b.[2 <- b 0] in
  (b, a).

(** HPF: H(s) = s^2 / (s^2 + s/Q + 1) *)
Definition rta_biquad_highpass_coefs (b a : buf T) (f0 q : T)
  : buf T * buf T :=
  let w0 := M_PI * f0 in
  let alpha := rta_sin w0 / (r2 * q) in
  let c := rta_cos w0 in
  let a0_inv := r1 / (r1 + alpha) in
  let a := a.[0 <- (- r2 * c) * a0_inv] in
  let a := a.[1 <- (r1 - alpha) * a0_inv] in
  let b := b.[0 <- ((r1 + c) * rhalf) * a0_inv] in
  let b := b.[1 <- (- r1 - c) * a0_inv] in
  let b := b.[2 <- b 0] in
  (b, a).

(** BPF: H(s) = s / (s^2 + s/Q + 1), constant skirt gain *)
Definition rta_biquad_bandpass_constant_skirt_coefs (b a : buf T) (f0 q : T)
  : buf T * buf T :=
  let w0 := M_PI * f0 in
  let s := rta_sin w0 in
  let alpha := s / (r2 * q) in
  let c := rta_cos w0 in
  let a0_inv := r1 / (r1 + alpha) in
  let a := a.[0 <- (- r2 * c) * a0_inv] in
  let a := a.[1 <- (r1 - alpha) * a0_inv] in
  let b := b.[0 <- (s * rhalf) * a0_inv] in
  let b := b.[1 <- r0] in
  let b := b.[2 <- - b 0] in
  (b, a).

(** BPF: H(s) = (s/Q) / (s^2 + s/Q + 1), constant 0 dB peak gain *)
Definition rta_biquad_bandpass_constant_peak_coefs (b a : buf T) (f0 q : T)
  : buf T * buf T :=
  let w0 := M_PI * f0 in
  let alpha := rta_sin w0 / (r2 * q) in
  let c := rta_cos w0 in
  let a0_inv := r1 / (r1 + alpha) in
  let a := a.[0 <- (- r2 * c) * a0_inv] in
  let a := a.[1 <- (r1 - alpha) * a0_inv] in
  let b := b.[0 <- alpha * a0_inv] in
  let b := b.[1 <- r0] in
  let b := b.[2 <- - b 0] in
  (b, a).

(** notch: H(s) = (s^2 + 1) / (s^2 + s/Q + 1).  The middle store is
    [b[1] = b[1];] in the source and is kept as written. *)
Definition rta_biquad_notch_coefs (b a : buf T) (f0 q : T)
  : buf T * buf T :=
  let w0 := M_PI * f0 in
  let alpha := rta_sin w0 / (r2 * q) in
  let c := rta_cos w0 in
  let a0_inv := r1 / (r1 + alpha) in
  let a := a.[0 <- (- r2 * c) * a0_inv] in
  let a := a.[1 <- (r1 - alpha) * a0_inv] in
  let b := b.[0 <- a0_inv] in
  let b := b.[1 <- b 1] in
  let b := b.[2 <- b 0] in
  (b, a).

(** APF: H(s) = (s^2 - s/Q + 1) / (s^2 + s/Q + 1) *)
Definition rta_biquad_allpass_coefs (b a : buf T) (f0 q : T)
  : buf T * buf T :=
  let w0 := M_PI * f0 in
  let alpha := rta_sin w0 / (r2 * q) in
  let c := rta_cos w0 in
  let a0_inv := r1 / (r1 + alpha) in
  let a := a.[0 <- (- r2 * c) * a0_inv] in
  let a := a.[1 <- (r1 - alpha) * a0_inv] in
  let b := b.[0 <- a 1] in
  let b := b.[1 <- a 0] in
  let b := b.[2 <- (r1 + alpha) * a0_inv] in
  (b, a).

(** peakingEQ: H(s) = (s^2 + s*(A/Q) + 1) / (s^2 + s/(A*Q) + 1) *)
Definition rta_biquad_peaking_coefs (b a : buf T) (f0 q gain : T)
  : buf T * buf T :=
  let g := rta_sqrt gain in
  let g_inv := r1 / g in
  let w0 := M_PI * f0 in
  let alpha := rta_sin w0 / (r2 * q) in
  let c := rta_cos w0 in
  let a0_inv := r1 / (r1 + alpha * g_inv) in
  let a := a.[0 <- (- r2 * c) * a0_inv] in
  let a := a.[1 <- (r1 - alpha * g_inv) * a0_inv] in
  let b := b.[0 <- (r1 + alpha * g) * a0_inv] in
  let b := b.[1 <- a 0] in
  let b := b.[2 <- (r1 - alpha * g) * a0_inv] in
  (b, a).

(** lowShelf *)
Definition rta_biquad_lowshelf_coefs (b a : buf T) (f0 q gain : T)
  : buf T * buf T :=
  let g := rta_sqrt gain in
  let w0 := M_PI * f0 in
  let alpha_2_sqrtg := rta_sin w0 * rta_sqrt g / q in
  let c := rta_cos w0 in
  let a0_inv := r1 / ((g + r1) + (g - r1) * c + alpha_2_sqrtg) in
  let a := a.[0 <- (- r2 * ((g - r1) + (g + r1) * c)) * a0_inv] in
  let a := a.[1 <- ((g + r1) + (g - r1) * c - alpha_2_sqrtg) * a0_inv] in
  let b := b.[0 <- (g * ((g + r1) - (g - r1) * c + alpha_2_sqrtg)) * a0_inv] in
  let b := b.[1 <- (r2 * g * ((g - r1) - (g + r1) * c)) * a0_inv] in
  let b := b.[2 <- (g * ((g + r1) - (g - r1) * c - alpha_2_sqrtg)) * a0_inv] in
  (b, a).

(** highShelf *)
Definition rta_biquad_highshelf_coefs (b a : buf T) (f0 q gain : T)
  : buf T * buf T :=
  let g := rta_sqrt gain in
  let w0 := M_PI * f0 in
  let alpha_2_sqrtg := rta_sin w0 * rta_sqrt g / q in
  let c := rta_cos w0 in
  let a0_inv := r1 / ((g + r1) - (g - r1) * c + alpha_2_sqrtg) in
  let a := a.[0 <- (r2 * ((g - r1) - (g + r1) * c)) * a0_inv] in
  let a := a.[1 <- ((g + r1) - (g - r1) * c - alpha_2_sqrtg) * a0_inv] in
  let b := b.[0 <- (g * ((g + r1) + (g - r1) * c + alpha_2_sqrtg)) * a0_inv] in
  let b := b.[1 <- (- r2 * g * ((g - r1) + (g + r1) * c)) * a0_inv] in
  let b := b.[2 <- (g * ((g + r1) + (g - r1) * c - alpha_2_sqrtg)) * a0_inv] in
  (b, a).

(** Modelled from the spec: the enumeration [rta_filter_t] is declared in
    [rta_filter.h], which is not among the sources.  Its nine enumerators
    are the case labels of the two switches of [rta_biquad_coefs].  A C
    enumeration object can hold an integer that is none of its
    enumerators; [rta_filter_unlisted] stands for such a value. *)
Inductive rta_filter_t : Type :=
| rta_lowpass
| rta_highpass
| rta_bandpass_constant_skirt
| rta_bandpass_constant_peak
| rta_notch
| rta_allpass
| rta_peaking
| rta_lowshelf
| rta_highshelf
| rta_filter_unlisted.

(** The case labels of the second switch. *)
Definition gainless (type : rta_filter_t) : bool :=
  match type with
  | rta_lowpass | rta_highpass
  | rta_bandpass_constant_skirt | rta_bandpass_constant_peak
  | rta_notch | rta_allpass => true
  | _ => false
  end.

(** The nine enumerators. *)
Definition enumerated (type : rta_filter_t) : bool :=
  match type with
  | rta_filter_unlisted => false
  | _ => true
  end.

(** helper: two switches in sequence, neither with a [default] label. *)
Definition rta_biquad_coefs (b a : buf T) (type : rta_filter_t)
  (f0 q gain : T) : buf T * buf T :=
  let '(b, a) :=
    match type with
    | rta_lowpass => rta_biquad_lowpass_coefs b a f0 q
    | rta_highpass => rta_biquad_highpass_coefs b a f0 q
    | rta_bandpass_constant_skirt =>
        rta_biquad_bandpass_constant_skirt_coefs b a f0 q
    | rta_bandpass_constant_peak =>
        rta_biquad_bandpass_constant_peak_coefs b a f0 q
    | rta_notch => rta_biquad_notch_coefs b a f0 q
    | rta_allpass => rta_biquad_allpass_coefs b a f0 q
    | rta_peaking => rta_biquad_peaking_coefs b a f0 q gain
    | rta_lowshelf => rta_biquad_lowshelf_coefs b a f0 q gain
    | rta_highshelf => rta_biquad_highshelf_coefs b a f0 q gain
    | rta_filter_unlisted => (b, a)
    end in
  match type with
  | rta_lowpass | rta_highpass
  | rta_bandpass_constant_skirt | rta_bandpass_constant_peak
  | rta_notch | rta_allpass =>
      if rneb gain r1 then
        let b := b.[0 <- b 0 * gain] in
        let b := b.[1 <- b 1 * gain] in
        let b := b.[2 <- b 2 * gain] in
        (b, a)
      else (b, a)
  | _ => (b, a)
  end.

(** How a call can end.  Every function of [rta_biquad.c] has return type
    [void] and a single exit, the [return;] that closes its body: a call
    ends by handing the two buffers back, and the sources have no
    statement that would report a failure. *)
Inductive outcome (A : Type) : Type :=
| Returned (v : A)
| Failed (msg : string).

Arguments Returned {A} v.
Arguments Failed {A} msg.

Definition rta_biquad_coefs_call (b a : buf T) (type : rta_filter_t)
  (f0 q gain : T) : outcome (buf T * buf T) :=
  Returned (rta_biquad_coefs b a type f0 q gain).

(** The formula function a tag selects, as the first switch routes it. *)
Definition formula_of (type : rta_filter_t) (b a : buf T) (f0 q gain : T)
  : buf T * buf T :=
  match type with
  | rta_lowpass => rta_biquad_lowpass_coefs b a f0 q
  | rta_highpass => rta_biquad_highpass_coefs b a f0 q
  | rta_bandpass_constant_skirt =>
      rta_biquad_bandpass_constant_skirt_coefs b a f0 q
  | rta_bandpass_constant_peak =>
      rta_biquad_bandpass_constant_peak_coefs b a f0 q
  | rta_notch => rta_biquad_notch_coefs b a f0 q
  | rta_allpass => rta_biquad_allpass_coefs b a f0 q
  | rta_peaking => rta_biquad_peaking_coefs b a f0 q gain
  | rta_lowshelf => rta_biquad_lowshelf_coefs b a f0 q gain
  | rta_highshelf => rta_biquad_highshelf_coefs b a f0 q gain
  | rta_filter_unlisted => (b, a)
  end.

(** ** The cookbook lowpass, from the design document

    [w0 = pi f0], [c = cos w0], [alpha = sin w0 / (2 q)],
    [a0_inv = 1 / (1 + alpha)], then
    [a1 = -2 c a0_inv], [a2 = (1 - alpha) a0_inv],
    [b0 = b2 = ((1 - c) / 2) a0_inv], [b1 = (1 - c) a0_inv]. *)
Record coefficients : Type := {
  coef_b0 : T; coef_b1 : T; coef_b2 : T;
  coef_a1 : T; coef_a2 : T
}.

Definition cookbook_lowpass (f0 q : T) : coefficients :=
  let w0 := M_PI * f0 in
  let c := rta_cos w0 in
  let alpha := rta_sin w0 / (r2 * q) in
  let a0_inv := r1 / (r1 + alpha) in
  {| coef_b0 := ((r1 - c) / r2) * a0_inv;
     coef_b1 := (r1 - c) * a0_inv;
     coef_b2 := ((r1 - c) / r2) * a0_inv;
     coef_a1 := (- r2 * c) * a0_inv;
     coef_a2 := (r1 - alpha) * a0_inv |}.

(** What a pair of buffers holds in the cells the formulae write. *)
Definition coefficients_in (ba : buf T * buf T) : coefficients :=
  {| coef_b0 := fst ba 0; coef_b1 := fst ba 1; coef_b2 := fst ba 2;
     coef_a1 := snd ba 0; coef_a2 := snd ba 1 |}.

End Biquad.

Arguments Returned {A} v.
Arguments Failed {A} msg.

(* ================================================================== *)
(** * Two instances of the scalar interface *)

(** The real numbers. *)
#[export] Instance real_arith : RtaReal R := {|
  r0 := 0%R;
  r1 := 1%R;
  r2 := 2%R;
  rhalf := (1 / 2)%R;
  radd := Rplus;
  rsub := Rminus;
  rmul := Rmult;
  rdiv := Rdiv;
  ropp := Ropp;
  rta_sqrt := sqrt;
  rneb := fun x y => if Req_dec_T x y then false else true;
  rlt := Rlt
|}.

#[export] Instance real_math : RtaMath R := {|
  M_PI := PI;
  rta_sin := sin;
  rta_cos := cos
|}.

(** IEEE binary64, the [double] of the C sources. *)
#[export] Instance binary64_arith : RtaReal float := {|
  r0 := 0%float;
  r1 := 1%float;
  r2 := 2%float;
  rhalf := 0.5%float;
  radd := PrimFloat.add;
  rsub := PrimFloat.sub;
  rmul := PrimFloat.mul;
  rdiv := PrimFloat.div;
  ropp := PrimFloat.opp;
  rta_sqrt := PrimFloat.sqrt;
  rneb := fun x y => negb (PrimFloat.eqb x y);
  rlt := fun x y => PrimFloat.ltb x y = true
|}.

(** [M_PI] of [math.h] is the double nearest to pi; [sin] and [cos] come
    from the C library and are taken as given. *)
Definition binary64_math (libm_sin libm_cos : float -> float)
  : RtaMath float := {|
  M_PI := 0x1.921fb54442d18p+1%float;
  rta_sin := libm_sin;
  rta_cos := libm_cos
|}.

(** A binary64 value that is infinite or NaN. *)
Definition unbounded (y : float) : Prop :=
  match Prim2SF y with
  | S754_infinity _ => True
  | S754_nan => True
  | _ => False
  end.

(* ================================================================== *)
(** * matlab/rta_mex_yin.c *)

(** [unsigned int] arithmetic: 32 bits, wrapping. *)
Definition uint_modulus : Z := 2 ^ 32.
Definition uint (z : Z) : Z := z mod uint_modulus.

(** The conversions between [double], [rta_real_t] and [unsigned int]
    that the entry point performs.  MATLAB arrays are single or double,
    so [rta_real_t] is not wider than [double] here and a mixed operation
    is carried out in [double].
    - [real_of_double]: the cast [(rta_real_t) x], also the conversion of
      a [double] value stored through an [rta_real_t *];
    - [double_of_real]: the promotion of an [rta_real_t] operand;
    - [real_of_uint]: the conversion of an [unsigned int] operand;
    - [ceil_to_uint]: [(unsigned int) ceil(x)], which C leaves undefined
      when the value does not fit [unsigned int] ([None]). *)
Class MexScalars (D T : Type) : Type := {
  real_of_double : D -> T;
  double_of_real : T -> D;
  real_of_uint : Z -> T;
  ceil_to_uint : D -> option Z
}.

(** The least integer not below a finite binary64 value. *)
Definition binary64_ceil (x : float) : option Z :=
  match Prim2SF x with
  | S754_zero _ => Some 0%Z
  | S754_finite s m e =>
      let num := (if s then Z.neg m else Z.pos m) in
      Some (if (0 <=? e)%Z then (num * 2 ^ e)%Z
            else (- ((- num) / 2 ^ (- e)))%Z)
  | S754_infinity _ => None
  | S754_nan => None
  end.

Definition binary64_ceil_to_uint (x : float) : option Z :=
  match binary64_ceil x with
  | Some n => if ((0 <=? n) && (n <? uint_modulus))%Z then Some n else None
  | None => None
  end.

(** Conversion of an [unsigned int] value to binary64 (exact: the value
    has at most 32 significant bits). *)
Definition binary64_of_uint (z : Z) : float :=
  match z with
  | Zpos p => SF2Prim (S754_finite false p 0)
  | _ => 0%float
  end.

(** The build with [RTA_REAL_TYPE == RTA_DOUBLE_TYPE]. *)
#[export] Instance binary64_mex : MexScalars float float := {|
  real_of_double := fun x => x;
  double_of_real := fun x => x;
  real_of_uint := binary64_of_uint;
  ceil_to_uint := binary64_ceil_to_uint
|}.

Section Yin.

Context {D T : Type} {AD : RtaReal D} {AT : RtaReal T} {MS : MexScalars D T}.
Local Open Scope rta_scope.

(** The right-hand side arguments, [prhs[0..4]]. *)
Record mex_inputs : Type := {
  setup_address : D;
  input : list D;
  threshold : D;
  min_freq : D;
  sample_rate : D
}.

(** The left-hand side results, [plhs[0..4]]: four 1x1 matrices and one
    1 x ac_size matrix. *)
Record yin_outputs : Type := {
  f0 : T;
  energy : T;
  periodicity : T;
  ac1_over_ac0 : T;
  autocorrelation : buf T;
  autocorrelation_size : Z
}.

(** The arguments of the one [printf] of the entry point. *)
Record diagnostic : Type := {
  points_expected : Z;
  points_recommended : Z;
  diag_min_freq : D;
  diag_sample_rate : D
}.

(** What a call leaves behind: the output matrices it created, if any,
    and the lines it printed. *)
Record mex_effects : Type := {
  plhs : option yin_outputs;
  printed : list diagnostic
}.

(** [rta_yin] is declared in [rta_yin.h] and defined outside these
    sources; the entry point is verified for every such function.  It
    receives the zero-filled autocorrelation matrix, its size, the
    converted input and its size, the setup and the threshold, and hands
    back the lag, the absolute minimum and the filled autocorrelation. *)
Variable rta_yin :
  buf T -> Z -> list T -> Z -> D -> T -> T * T * buf T.

(** [ac_size = (unsigned int)ceil(sample_rate / min_freq) + 2] *)
Definition ac_size_of (args : mex_inputs) : option Z :=
  match ceil_to_uint (sample_rate args / min_freq args) with
  | Some n => Some (uint (n + 2))
  | None => None
  end.

(** [input_size = mxGetNumberOfElements(prhs[1])], as the unsigned
    operand it is converted to in [ac_size < input_size]. *)
Definition input_size_of (args : mex_inputs) : Z :=
  uint (Z.of_nat (List.length (input args))).

Definition mexFunction (args : mex_inputs) : option mex_effects :=
  match ac_size_of args with
  | None => None
  | Some ac_size =>
      let input_size := input_size_of args in
      if (ac_size <? input_size)%Z then
        let real_input := map real_of_double (input args) in
        let '(lag, abs_min, autocorrelation) :=
          rta_yin (fun _ => r0) ac_size real_input input_size
                  (setup_address args) (real_of_double (threshold args)) in
        let f0 := real_of_double (sample_rate args / double_of_real lag) in
        let energy :=
          rta_sqrt (autocorrelation 0
                    / real_of_uint (uint (input_size - ac_size))) in
        let periodicity :=
          real_of_double (r1 - rta_sqrt (double_of_real abs_min)) in
        let ac1_over_ac0 :=
          if rneb (double_of_real (autocorrelation 0)) r0
          then autocorrelation 1 / autocorrelation 0
          else real_of_double r0 in
        Some {| plhs := Some {| f0 := f0;
                                energy := energy;
                                periodicity := periodicity;
                                ac1_over_ac0 := ac1_over_ac0;
                                autocorrelation := autocorrelation;
                                autocorrelation_size := ac_size |};
                printed := [] |}
      else
        Some {| plhs := None;
                printed := [ {| points_expected := uint (ac_size + 1);
                                points_recommended := uint (2 * ac_size);
                                diag_min_freq := min_freq args;
                                diag_sample_rate := sample_rate args |} ] |}
  end.

End Yin.

(** An [rta_yin] with a fixed result, to run the entry point on data. *)
Definition constant_yin {D T : Type} (lag abs_min : T) (ac : buf T)
  : buf T -> Z -> list T -> Z -> D -> T -> T * T * buf T :=
  fun _ _ _ _ _ _ => (lag, abs_min, ac).

(* ================================================================== *)
(** * Data the statements below are run on *)

(** Buffers that hold zero in every cell, over the reals. *)
Definition zero_buf : buf R := fun _ => 0%R.

(** 100 Hz sample rate, 10 Hz minimum frequency, so that
    [ceil(100/10) + 2 = 12]; [n] samples of silence. *)
Definition silence (n : nat) : mex_inputs (D := float) := {|
  setup_address := 0%float;
  input := repeat 0%float n;
  threshold := 0.125%float;
  min_freq := 10%float;
  sample_rate := 100%float
|}.

(** [n] samples of silence at a given sample rate and minimum
    frequency. *)
Definition silence_at (rate freq : float) (n : nat)
  : mex_inputs (D := float) := {|
  setup_address := 0%float;
  input := repeat 0%float n;
  threshold := 0.125%float;
  min_freq := freq;
  sample_rate := rate
|}.

(** An autocorrelation with [2] at lag 0 and [1] elsewhere, and one that
    is zero at lag 0. *)
Definition ac_two_one : buf float :=
  fun i => if Nat.eqb i 0 then 2%float else 1%float.
Definition ac_zero_one : buf float :=
  fun i => if Nat.eqb i 0 then 0%float else 1%float.

(* ================================================================== *)
(** * rta_complex.h *)

(** The [WIN32] branch of the header, where [rta_complex_t] is a struct
    of two scalars and the operations are inline functions.  The struct
    is declared three times, with [float], [double] and [long double]
    fields; the scalar interface stands for the field type.  The second
    argument of [rta_mul_complex_real] is declared [float] in all three:
    it is a value of the field type in the [float] variant, and one
    converted from [float] in the other two. *)
Section Complex.

Context {T : Type} `{RtaReal T}.
Local Open Scope rta_scope.

Record rta_complex_t : Type := { real : T; imag : T }.

Definition rta_make_complex (re im : T) : rta_complex_t :=
  {| real := re; imag := im |}.

Definition rta_add_complex (a b : rta_complex_t) : rta_complex_t :=
  {| real := real a + real b; imag := imag a + imag b |}.

Definition rta_sub_complex (a b : rta_complex_t) : rta_complex_t :=
  {| real := real a - real b; imag := imag a - imag b |}.

Definition rta_mul_complex (a b : rta_complex_t) : rta_complex_t :=
  {| real := real a * real b - imag a * imag b;
     imag := imag a * real b + real a * imag b |}.

Definition rta_mul_complex_real (a : rta_complex_t) (b : T)
  : rta_complex_t :=
  {| real := real a * b; imag := imag a * b |}.

Definition rta_div_complex (a b : rta_complex_t) : rta_complex_t :=
  {| real := (real a * real b + imag a * imag b)
             / (real b * real b + imag b * imag b);
     imag := (real b * imag a - real a * imag b)
             / (real b * real b + imag b * imag b) |}.

Definition rta_conj (a : rta_complex_t) : rta_complex_t :=
  {| real := real a; imag := - imag a |}.

End Complex.

Arguments rta_complex_t T : clear implicits.

(* ================================================================== *)
(** * Buffers *)

Lemma store_same {T : Type} (p : buf T) i v : p.[i <- v] i = v.
Proof. unfold store. now rewrite Nat.eqb_refl. Qed.

Lemma store_other {T : Type} (p : buf T) i j v :
  j <> i -> p.[i <- v] j = p j.
Proof.
  intros Hne. unfold store.
  destruct (Nat.eqb_spec j i) as [Heq | _]; [contradiction | reflexivity].
Qed.

(* ================================================================== *)
(** * The laws hold of the reals *)

#[export] Instance real_laws : RtaRealLaws R.
Proof.
  constructor; cbn.
  - intros x. destruct (Req_dec_T x 1) as [E | N]; split; intros H;
      try reflexivity; try discriminate; try assumption; contradiction.
  - intros x y. apply Rmult_comm.
  - intros x. apply Rmult_1_l.
  - intros x. lra.
Qed.

(* ================================================================== *)
(** * Properties of rta_biquad.c *)

Section BiquadFacts.

Context {T : Type} `{RM : RtaMath T} {L : RtaRealLaws T}.
Local Open Scope rta_scope.

Lemma rneb_one_one : rneb r1 r1 = false.
Proof. now apply rneb_one. Qed.

(** Unfold the dispatcher and the formula functions down to the stores. *)
Ltac run_dispatch :=
  unfold rta_biquad_coefs, formula_of, rta_biquad_lowpass_coefs,
    rta_biquad_highpass_coefs, rta_biquad_bandpass_constant_skirt_coefs,
    rta_biquad_bandpass_constant_peak_coefs, rta_biquad_notch_coefs,
    rta_biquad_allpass_coefs, rta_biquad_peaking_coefs,
    rta_biquad_lowshelf_coefs, rta_biquad_highshelf_coefs;
  cbv beta zeta iota.

(** Read a cell of a buffer after stores at constant indices. *)
Ltac read_cell := unfold store; cbn [Nat.eqb]; cbv beta iota.

(** With unit gain the second switch changes nothing. *)
Lemma rta_biquad_coefs_unit_gain (b a : buf T) (type : rta_filter_t)
  (f0 q : T) :
  rta_biquad_coefs b a type f0 q r1 = formula_of type b a f0 q r1.
Proof.
  destruct type; run_dispatch; rewrite ?rneb_one_one; reflexivity.
Qed.

(** The lowpass function stores the cookbook values, whatever [f0] and
    [q] are: the function has no test on its parameters. *)
Lemma lowpass_stores_cookbook (b a : buf T) (f0 q : T) :
  coefficients_in (rta_biquad_lowpass_coefs b a f0 q) = cookbook_lowpass f0 q.
Proof.
  unfold coefficients_in, rta_biquad_lowpass_coefs, cookbook_lowpass.
  cbn [fst snd]. unfold store. cbn [Nat.eqb].
  now rewrite rmul_half.
Qed.

(** C1.  For every [f0] in (0,1) and [q > 0], [rta_biquad_lowpass_coefs]
    leaves in [b[0..2]] and [a[0..1]] exactly the cookbook lowpass
    coefficients: with [w0 = pi f0], [c = cos w0],
    [alpha = sin w0 / (2 q)], [a0_inv = 1 / (1 + alpha)], it sets
    [a1 = -2 c a0_inv], [a2 = (1 - alpha) a0_inv],
    [b0 = b2 = ((1 - c) / 2) a0_inv], [b1 = (1 - c) a0_inv]; and the
    dispatcher called with the lowpass tag and gain 1 returns the same
    reference values. *)
Theorem lowpass_coefs_cookbook (b a : buf T) (f0 q : T) :
  r0 < f0 -> f0 < r1 -> r0 < q ->
  coefficients_in (rta_biquad_lowpass_coefs b a f0 q) = cookbook_lowpass f0 q
  /\ coefficients_in (rta_biquad_coefs b a rta_lowpass f0 q r1)
     = cookbook_lowpass f0 q.
Proof.
  intros _ _ _. split.
  - apply lowpass_stores_cookbook.
  - rewrite rta_biquad_coefs_unit_gain. apply lowpass_stores_cookbook.
Qed.

(** C2.  [rta_biquad_notch_coefs] assigns [b[1]] from itself: for every
    [f0] in (0,1) and [q > 0] the value in [b[1]] on return is the value
    [b[1]] held on entry. *)
Theorem notch_b1_is_entry_value (b a : buf T) (f0 q : T) :
  r0 < f0 -> f0 < r1 -> r0 < q ->
  fst (rta_biquad_notch_coefs b a f0 q) 1 = b 1.
Proof.
  intros _ _ _. unfold rta_biquad_notch_coefs. cbn [fst].
  rewrite store_other by discriminate.
  rewrite store_same.
  now rewrite store_other by discriminate.
Qed.

(** Gain linearity between two calls that start from one and the same
    pair of buffers: for each of the six gain-less shapes the cells
    [b[0..2]] left for gain [k] are [k] times the cells left for gain 1,
    and the [a] buffer is the same for every [k].  The proviso on the
    buffers is needed for the notch shape only, which hands [b[1]]
    through. *)
Theorem gain_linearity (type : rta_filter_t) (b a : buf T) (f0 q k : T) :
  gainless type = true ->
  r0 < f0 -> f0 < r1 -> r0 < q -> r0 < k ->
  (forall i, (i < 3)%nat ->
     fst (rta_biquad_coefs b a type f0 q k) i
     = k * fst (rta_biquad_coefs b a type f0 q r1) i)
  /\ snd (rta_biquad_coefs b a type f0 q k)
     = snd (rta_biquad_coefs b a type f0 q r1).
Proof.
  intros Hg _ _ _ _.
  destruct type; try discriminate Hg; run_dispatch;
    rewrite rneb_one_one; destruct (rneb k r1) eqn:Ek;
    cbn [fst snd]; (split; [ | reflexivity ]); intros i Hi;
    destruct i as [ | [ | [ | i ] ] ]; try lia; read_cell;
    first [ apply rmul_comm
          | apply rneb_one in Ek; subst k; symmetry; apply rmul_1_l ].
Qed.

(** Apart from notch, the gain-less shapes overwrite all five cells, so
    the relation holds between calls on unrelated buffers as well. *)
Lemma gainless_scaling_any_buffers (type : rta_filter_t)
  (b a b' a' : buf T) (f0 q k : T) :
  gainless type = true -> type <> rta_notch ->
  (forall i, (i < 3)%nat ->
     fst (rta_biquad_coefs b a type f0 q k) i
     = k * fst (rta_biquad_coefs b' a' type f0 q r1) i)
  /\ (forall j, (j < 2)%nat ->
     snd (rta_biquad_coefs b a type f0 q k) j
     = snd (rta_biquad_coefs b' a' type f0 q r1) j).
Proof.
  intros Hg Hn.
  destruct type; try discriminate Hg; try (now contradiction Hn);
    run_dispatch; rewrite rneb_one_one; destruct (rneb k r1) eqn:Ek;
    cbn [fst snd]; split; intros i Hi;
    destruct i as [ | [ | [ | i ] ] ]; try lia; read_cell;
    first [ reflexivity
          | apply rmul_comm
          | apply rneb_one in Ek; subst k; symmetry; apply rmul_1_l ].
Qed.

(** The notch function hands [b[1]] through on any parameters. *)
Lemma notch_b1_through_formula (b a : buf T) (f0 q : T) :
  fst (rta_biquad_notch_coefs b a f0 q) 1 = b 1.
Proof. unfold rta_biquad_notch_coefs. cbn [fst]. now read_cell. Qed.

(** What the dispatcher leaves in [b[1]] for the notch tag. *)
Lemma notch_b1_through_dispatcher (b a : buf T) (f0 q gain : T) :
  fst (rta_biquad_coefs b a rta_notch f0 q gain) 1
  = if rneb gain r1 then b 1 * gain else b 1.
Proof.
  run_dispatch. destruct (rneb gain r1); cbn [fst]; now read_cell.
Qed.

(** Amended C3.  For a tag that is none of the nine enumerators neither
    switch of [rta_biquad_coefs] has a matching label: the call returns
    normally and both buffers are as they were on entry. *)
Theorem unlisted_type_leaves_buffers (type : rta_filter_t) (b a : buf T)
  (f0 q gain : T) :
  enumerated type = false ->
  rta_biquad_coefs_call b a type f0 q gain = Returned (b, a).
Proof.
  intros He. destruct type; try discriminate He. reflexivity.
Qed.

(** C5.  For the peaking, low-shelf and high-shelf tags
    [rta_biquad_coefs] returns exactly what the formula function of the
    shape computes: the second switch has no label for them, so nothing
    is multiplied by [gain] afterwards. *)
Theorem gain_shapes_not_rescaled (b a : buf T) (f0 q gain : T) :
  r0 < f0 -> f0 < r1 -> r0 < q -> r0 < gain ->
  rta_biquad_coefs b a rta_peaking f0 q gain
  = rta_biquad_peaking_coefs b a f0 q gain
  /\ rta_biquad_coefs b a rta_lowshelf f0 q gain
     = rta_biquad_lowshelf_coefs b a f0 q gain
  /\ rta_biquad_coefs b a rta_highshelf f0 q gain
     = rta_biquad_highshelf_coefs b a f0 q gain.
Proof. intros _ _ _ _. repeat split. Qed.


(** C7.  The allpass numerator is the denominator reversed: for every
    [f0] in (0,1) and [q > 0], [b[0]] is the normalised [a2], that is
    [(1 - alpha) a0_inv]; [b[1]] is the normalised [a1], that is
    [-2 c a0_inv]; and [b[2]] is [(1 + alpha) a0_inv], the normalised
    [a0]. *)
Theorem allpass_numerator_reverses_denominator (b a : buf T) (f0 q : T) :
  r0 < f0 -> f0 < r1 -> r0 < q ->
  let ba := rta_biquad_allpass_coefs b a f0 q in
  fst ba 0 = snd ba 1
  /\ snd ba 1 = (r1 - alpha_of f0 q) * a0_inv_of f0 q
  /\ fst ba 1 = snd ba 0
  /\ snd ba 0 = (- r2 * c_of f0) * a0_inv_of f0 q
  /\ fst ba 2 = (r1 + alpha_of f0 q) * a0_inv_of f0 q.
Proof. intros _ _ _. cbv zeta. repeat split. Qed.

(** C8.  For every [f0] in (0,1) and [q > 0] the lowpass, highpass, both
    bandpass, the notch and the allpass functions leave the same
    denominator: [a[0] = -2 cos(pi f0) a0_inv] and
    [a[1] = (1 - alpha) a0_inv] with [a0_inv = 1 / (1 + alpha)]. *)
Theorem gainless_shapes_share_denominator (b a : buf T) (f0 q : T) :
  r0 < f0 -> f0 < r1 -> r0 < q ->
  let a' := a.[0 <- (- r2 * rta_cos (M_PI * f0)) * a0_inv_of f0 q]
             .[1 <- (r1 - alpha_of f0 q) * a0_inv_of f0 q] in
  (a' 0 = (- r2 * rta_cos (M_PI * f0)) * a0_inv_of f0 q
   /\ a' 1 = (r1 - alpha_of f0 q) * a0_inv_of f0 q
   /\ a0_inv_of f0 q = r1 / (r1 + alpha_of f0 q)
   /\ alpha_of f0 q = rta_sin (M_PI * f0) / (r2 * q))
  /\ snd (rta_biquad_lowpass_coefs b a f0 q) = a'
  /\ snd (rta_biquad_highpass_coefs b a f0 q) = a'
  /\ snd (rta_biquad_bandpass_constant_skirt_coefs b a f0 q) = a'
  /\ snd (rta_biquad_bandpass_constant_peak_coefs b a f0 q) = a'
  /\ snd (rta_biquad_notch_coefs b a f0 q) = a'
  /\ snd (rta_biquad_allpass_coefs b a f0 q) = a'.
Proof. intros _ _ _. cbv zeta. repeat split. Qed.

End BiquadFacts.

(** The end-to-end scenario of the design document: lowpass, [f0 = 0.1],
    [q = 0.7071], gain 1. *)
Lemma lowpass_coefs_cookbook_witness :
  (0 < 0.1)%R /\ (0.1 < 1)%R /\ (0 < 0.7071)%R /\
  coefficients_in (rta_biquad_lowpass_coefs zero_buf zero_buf 0.1%R 0.7071%R)
  = cookbook_lowpass 0.1%R 0.7071%R /\
  coefficients_in (rta_biquad_coefs zero_buf zero_buf rta_lowpass
                     0.1%R 0.7071%R 1%R)
  = cookbook_lowpass 0.1%R 0.7071%R.
Proof.
  assert (H1 : (0 < 0.1)%R) by lra.
  assert (H2 : (0.1 < 1)%R) by lra.
  assert (H3 : (0 < 0.7071)%R) by lra.
  exact (conj H1 (conj H2 (conj H3
    (lowpass_coefs_cookbook (T := R) zero_buf zero_buf 0.1%R 0.7071%R
       H1 H2 H3)))).
Defined.

Lemma notch_b1_is_entry_value_witness :
  (0 < 0.25)%R /\ (0.25 < 1)%R /\ (0 < 2)%R /\
  fst (rta_biquad_notch_coefs (zero_buf.[1 <- 7%R]) zero_buf 0.25%R 2%R) 1
  = 7%R.
Proof.
  assert (H1 : (0 < 0.25)%R) by lra.
  assert (H2 : (0.25 < 1)%R) by lra.
  assert (H3 : (0 < 2)%R) by lra.
  exact (conj H1 (conj H2 (conj H3
    (notch_b1_is_entry_value (T := R) (zero_buf.[1 <- 7%R]) zero_buf
       0.25%R 2%R H1 H2 H3)))).
Defined.

(** The notch tag with gain 3, on a buffer whose [b[1]] holds 7. *)
(** Over the reals, at [f0 = 0.5], the cookbook value [-2 c a0_inv] of
    the notch [b1] is 0, while the function hands back the 7 it found. *)
Lemma notch_b1_differs_from_cookbook :
  fst (rta_biquad_notch_coefs (zero_buf.[1 <- 7%R]) zero_buf 0.5%R 2%R) 1
  <> ((- 2 * c_of 0.5) * a0_inv_of 0.5 2)%R.
Proof.
  rewrite (notch_b1_through_formula (T := R)).
  unfold c_of, w0_of. cbn.
  replace (PI * 0.5)%R with (PI / 2)%R by lra.
  rewrite cos_PI2. unfold store. cbn. lra.
Qed.

Lemma gain_linearity_witness :
  gainless rta_notch = true /\
  (0 < 0.25)%R /\ (0.25 < 1)%R /\ (0 < 2)%R /\ (0 < 3)%R /\
  (forall i, (i < 3)%nat ->
     fst (rta_biquad_coefs (zero_buf.[1 <- 7%R]) zero_buf rta_notch
            0.25%R 2%R 3%R) i
     = (3 * fst (rta_biquad_coefs (zero_buf.[1 <- 7%R]) zero_buf rta_notch
                   0.25%R 2%R 1%R) i)%R)
  /\ snd (rta_biquad_coefs (zero_buf.[1 <- 7%R]) zero_buf rta_notch
            0.25%R 2%R 3%R)
     = snd (rta_biquad_coefs (zero_buf.[1 <- 7%R]) zero_buf rta_notch
              0.25%R 2%R 1%R).
Proof.
  assert (H1 : (0 < 0.25)%R) by lra.
  assert (H2 : (0.25 < 1)%R) by lra.
  assert (H3 : (0 < 2)%R) by lra.
  assert (H4 : (0 < 3)%R) by lra.
  exact (conj eq_refl (conj H1 (conj H2 (conj H3 (conj H4
    (gain_linearity (T := R) rta_notch (zero_buf.[1 <- 7%R]) zero_buf
       0.25%R 2%R 3%R eq_refl H1 H2 H3 H4)))))).
Defined.

(** C3 as stated fails: called over the reals with a tag outside the
    enumeration, [rta_biquad_coefs] reports no error. *)
Lemma unlisted_type_reports_no_error :
  enumerated rta_filter_unlisted = false /\
  ~ (exists msg,
       rta_biquad_coefs_call zero_buf zero_buf rta_filter_unlisted
         0.1%R 0.7071%R 1%R = Failed msg).
Proof.
  split; [reflexivity | ].
  intros [msg H]. discriminate H.
Qed.

Lemma unlisted_type_leaves_buffers_witness :
  enumerated rta_filter_unlisted = false /\
  rta_biquad_coefs_call (zero_buf.[1 <- 7%R]) zero_buf rta_filter_unlisted
    0.1%R 0.7071%R 2%R
  = Returned (zero_buf.[1 <- 7%R], zero_buf).
Proof.
  exact (conj eq_refl
    (unlisted_type_leaves_buffers (T := R) rta_filter_unlisted
       (zero_buf.[1 <- 7%R]) zero_buf 0.1%R 0.7071%R 2%R eq_refl)).
Defined.

Lemma gain_shapes_not_rescaled_witness :
  (0 < 0.25)%R /\ (0.25 < 1)%R /\ (0 < 2)%R /\ (0 < 3)%R /\
  rta_biquad_coefs zero_buf zero_buf rta_peaking 0.25%R 2%R 3%R
  = rta_biquad_peaking_coefs zero_buf zero_buf 0.25%R 2%R 3%R
  /\ rta_biquad_coefs zero_buf zero_buf rta_lowshelf 0.25%R 2%R 3%R
     = rta_biquad_lowshelf_coefs zero_buf zero_buf 0.25%R 2%R 3%R
  /\ rta_biquad_coefs zero_buf zero_buf rta_highshelf 0.25%R 2%R 3%R
     = rta_biquad_highshelf_coefs zero_buf zero_buf 0.25%R 2%R 3%R.
Proof.
  assert (H1 : (0 < 0.25)%R) by lra.
  assert (H2 : (0.25 < 1)%R) by lra.
  assert (H3 : (0 < 2)%R) by lra.
  assert (H4 : (0 < 3)%R) by lra.
  exact (conj H1 (conj H2 (conj H3 (conj H4
    (gain_shapes_not_rescaled (T := R) zero_buf zero_buf
       0.25%R 2%R 3%R H1 H2 H3 H4))))).
Defined.



(** In binary64 the lowpass formula at [q = 0] yields a NaN: with
    [sin w0 = 1] (as at [f0 = 0.5]) [alpha] is [1 / (2 * 0)], infinite,
    [a0_inv] is [1 / inf = 0], and [a[1] = (1 - inf) * 0]. *)
Lemma lowpass_q_zero_binary64 (libm_sin libm_cos : float -> float)
  (b a : buf float) (f0 : float) :
  libm_sin (0x1.921fb54442d18p+1 * f0)%float = 1%float ->
  PrimFloat.is_nan
    (snd (rta_biquad_lowpass_coefs (RM := binary64_math libm_sin libm_cos)
            b a f0 0%float) 1) = true.
Proof.
  intros Hs. unfold rta_biquad_lowpass_coefs. cbn [snd].
  rewrite store_same. cbn.
  rewrite Hs. reflexivity.
Qed.

Lemma allpass_numerator_reverses_denominator_witness :
  (0 < 0.25)%R /\ (0.25 < 1)%R /\ (0 < 2)%R /\
  let ba := rta_biquad_allpass_coefs zero_buf zero_buf 0.25%R 2%R in
  fst ba 0 = snd ba 1
  /\ snd ba 1 = ((1 - alpha_of 0.25 2) * a0_inv_of 0.25 2)%R
  /\ fst ba 1 = snd ba 0
  /\ snd ba 0 = ((- 2 * c_of 0.25) * a0_inv_of 0.25 2)%R
  /\ fst ba 2 = ((1 + alpha_of 0.25 2) * a0_inv_of 0.25 2)%R.
Proof.
  assert (H1 : (0 < 0.25)%R) by lra.
  assert (H2 : (0.25 < 1)%R) by lra.
  assert (H3 : (0 < 2)%R) by lra.
  exact (conj H1 (conj H2 (conj H3
    (allpass_numerator_reverses_denominator (T := R) zero_buf zero_buf
       0.25%R 2%R H1 H2 H3)))).
Defined.

(** Over the reals the normalised [a0] of the allpass is 1: on the
    documented domain [alpha] is positive, so [1 + alpha] has an
    inverse. *)
Lemma allpass_b2_is_one (b a : buf R) (f0 q : R) :
  (0 < f0)%R -> (f0 < 1)%R -> (0 < q)%R ->
  fst (rta_biquad_allpass_coefs b a f0 q) 2 = 1%R.
Proof.
  intros Hf0 Hf1 Hq.
  unfold rta_biquad_allpass_coefs. cbn [fst]. rewrite store_same. cbn.
  assert (Hpi : (0 < PI)%R) by apply PI_RGT_0.
  assert (Hs : (0 < sin (PI * f0))%R).
  { apply sin_gt_0; nra. }
  assert (Ha : (0 < sin (PI * f0) / (2 * q))%R).
  { apply Rdiv_lt_0_compat; lra. }
  field. lra.
Qed.

Lemma gainless_shapes_share_denominator_witness :
  (0 < 0.25)%R /\ (0.25 < 1)%R /\ (0 < 2)%R /\
  let a' := zero_buf.[0 <- ((- 2 * cos (PI * 0.25)) * a0_inv_of 0.25 2)%R]
                    .[1 <- ((1 - alpha_of 0.25 2) * a0_inv_of 0.25 2)%R] in
  (a' 0 = ((- 2 * cos (PI * 0.25)) * a0_inv_of 0.25 2)%R
   /\ a' 1 = ((1 - alpha_of 0.25 2) * a0_inv_of 0.25 2)%R
   /\ a0_inv_of 0.25%R 2%R = (1 / (1 + alpha_of 0.25 2))%R
   /\ alpha_of 0.25%R 2%R = (sin (PI * 0.25) / (2 * 2))%R)
  /\ snd (rta_biquad_lowpass_coefs zero_buf zero_buf 0.25%R 2%R) = a'
  /\ snd (rta_biquad_highpass_coefs zero_buf zero_buf 0.25%R 2%R) = a'
  /\ snd (rta_biquad_bandpass_constant_skirt_coefs zero_buf zero_buf
            0.25%R 2%R) = a'
  /\ snd (rta_biquad_bandpass_constant_peak_coefs zero_buf zero_buf
            0.25%R 2%R) = a'
  /\ snd (rta_biquad_notch_coefs zero_buf zero_buf 0.25%R 2%R) = a'
  /\ snd (rta_biquad_allpass_coefs zero_buf zero_buf 0.25%R 2%R) = a'.
Proof.
  assert (H1 : (0 < 0.25)%R) by lra.
  assert (H2 : (0.25 < 1)%R) by lra.
  assert (H3 : (0 < 2)%R) by lra.
  exact (conj H1 (conj H2 (conj H3
    (gainless_shapes_share_denominator (T := R) zero_buf zero_buf
       0.25%R 2%R H1 H2 H3)))).
Defined.

(* ================================================================== *)
(** * Properties of the YIN entry point *)

Section YinFacts.

Context {D T : Type} {AD : RtaReal D} {AT : RtaReal T} {MS : MexScalars D T}.
Variable rta_yin : buf T -> Z -> list T -> Z -> D -> T -> T * T * buf T.
Local Open Scope rta_scope.

Lemma uint_small (z : Z) : (0 <= z < uint_modulus)%Z -> uint z = z.
Proof. intros Hz. unfold uint. now apply Z.mod_small. Qed.

(** Amended C9.  The window size is
    [ac_size = (unsigned int)ceil(sample_rate / min_freq) + 2], computed
    in [unsigned int] (it is [ceil + 2] when that fits).  When the input
    holds at most [ac_size] samples the call creates no output and
    prints one diagnostic, naming [ac_size + 1] as the least and
    [2 * ac_size] as the recommended length; when it holds more than
    [ac_size] samples the call prints nothing and creates the five
    outputs from the result of [rta_yin]. *)
Theorem yin_window_guard (args : mex_inputs) (n : Z) :
  ceil_to_uint (sample_rate args / min_freq args) = Some n ->
  let ac_size := uint (n + 2) in
  let input_size := input_size_of args in
  ac_size_of args = Some ac_size
  /\ ((0 <= n)%Z -> (n + 2 < uint_modulus)%Z -> ac_size = (n + 2)%Z)
  /\ ((input_size <= ac_size)%Z ->
      mexFunction rta_yin args
      = Some {| plhs := None;
                printed :=
                  [ {| points_expected := uint (ac_size + 1);
                       points_recommended := uint (2 * ac_size);
                       diag_min_freq := min_freq args;
                       diag_sample_rate := sample_rate args |} ] |})
  /\ ((ac_size < input_size)%Z ->
      exists o : yin_outputs,
        mexFunction rta_yin args = Some {| plhs := Some o; printed := [] |}
        /\ autocorrelation_size o = ac_size
        /\ let '(lag, abs_min, ac) :=
             rta_yin (fun _ => r0) ac_size
               (map real_of_double (input args)) input_size
               (setup_address args) (real_of_double (threshold args)) in
           f0 o = real_of_double (sample_rate args / double_of_real lag)
           /\ energy o
              = rta_sqrt (ac 0 / real_of_uint (uint (input_size - ac_size)))
           /\ periodicity o
              = real_of_double (r1 - rta_sqrt (double_of_real abs_min))
           /\ autocorrelation o = ac).
Proof.
  intros Hc. cbv zeta.
  assert (Hac : ac_size_of args = Some (uint (n + 2))).
  { unfold ac_size_of. now rewrite Hc. }
  split; [exact Hac | ]. split; [ | split ].
  - intros Hn Hfit. apply uint_small. lia.
  - intros Hle. unfold mexFunction. rewrite Hac.
    destruct (Z.ltb_spec (uint (n + 2)) (input_size_of args)) as [Hlt | _];
      [lia | reflexivity].
  - intros Hlt. unfold mexFunction. rewrite Hac.
    destruct (Z.ltb_spec (uint (n + 2)) (input_size_of args)) as [_ | Hge];
      [ | lia].
    destruct (rta_yin _ _ _ _ _ _) as [[lag abs_min] ac].
    eexists. split; [reflexivity | ]. cbn. repeat split.
Qed.

(** C10.  Whenever the entry point creates outputs, [ac1_over_ac0] is
    [autocorrelation[1] / autocorrelation[0]] if [autocorrelation[0]]
    tests different from [0.0], and is [0.0] if it does not: the
    division is made only under the test. *)
Theorem ac1_over_ac0_guarded (args : mex_inputs) (effects : mex_effects)
  (o : yin_outputs) :
  mexFunction rta_yin args = Some effects ->
  plhs effects = Some o ->
  (rneb (double_of_real (autocorrelation o 0)) r0 = true ->
   ac1_over_ac0 o = autocorrelation o 1 / autocorrelation o 0)
  /\ (rneb (double_of_real (autocorrelation o 0)) r0 = false ->
      ac1_over_ac0 o = real_of_double r0).
Proof.
  unfold mexFunction. intros Hrun Hout.
  destruct (ac_size_of args) as [ac_size | ]; [ | discriminate Hrun].
  destruct (ac_size <? input_size_of args)%Z.
  - destruct (rta_yin _ _ _ _ _ _) as [[lag abs_min] ac].
    injection Hrun as Heff. subst effects. cbn in Hout.
    injection Hout as Ho. subst o. cbn.
    split; intros Ht; now rewrite Ht.
  - injection Hrun as Heff. subst effects. discriminate Hout.
Qed.

End YinFacts.

(** C9 as stated fails at the boundary: 12 samples are not fewer than
    the window size 12, and yet the call creates no output and prints
    the diagnostic. *)
Lemma yin_input_of_window_size_diagnosed :
  ac_size_of (silence 12) = Some 12%Z
  /\ input_size_of (silence 12) = 12%Z
  /\ mexFunction (constant_yin 4%float 0.25%float ac_two_one) (silence 12)
     = Some {| plhs := None;
               printed := [ {| points_expected := 13;
                               points_recommended := 24;
                               diag_min_freq := 10%float;
                               diag_sample_rate := 100%float |} ] |}.
Proof. vm_compute. repeat split. Qed.

(** Thirteen samples against the window size 12. *)
Lemma yin_window_guard_witness :
  ceil_to_uint (sample_rate (silence 13) / min_freq (silence 13))%rta
  = Some 10%Z
  /\ ac_size_of (silence 13) = Some 12%Z
  /\ exists o : yin_outputs,
       mexFunction (constant_yin 4%float 0.25%float ac_two_one) (silence 13)
       = Some {| plhs := Some o; printed := [] |}
       /\ autocorrelation_size o = 12%Z.
Proof.
  assert (Hc : ceil_to_uint
                 (sample_rate (silence 13) / min_freq (silence 13))%rta
               = Some 10%Z) by (vm_compute; reflexivity).
  destruct (yin_window_guard (constant_yin 4%float 0.25%float ac_two_one)
              (silence 13) 10 Hc) as [Hac [_ [_ Hrun]]].
  split; [exact Hc | ]. split; [exact Hac | ].
  destruct Hrun as [o [Ho [Hsize _]]]; [vm_compute; reflexivity | ].
  exists o. split; [exact Ho | exact Hsize].
Defined.

Lemma ac1_over_ac0_guarded_witness :
  exists (effects : mex_effects) (o : yin_outputs),
    mexFunction (constant_yin 4%float 0.25%float ac_two_one) (silence 13)
    = Some effects
    /\ plhs effects = Some o
    /\ (rneb (double_of_real (autocorrelation o 0)) r0 = true ->
        ac1_over_ac0 o = (autocorrelation o 1 / autocorrelation o 0)%rta)
    /\ (rneb (double_of_real (autocorrelation o 0)) r0 = false ->
        ac1_over_ac0 o = real_of_double r0).
Proof.
  eexists. eexists.
  assert (Hrun : mexFunction (constant_yin 4%float 0.25%float ac_two_one)
                   (silence 13) = _) by (vm_compute; reflexivity).
  split; [exact Hrun | ].
  split; [reflexivity | ].
  exact (ac1_over_ac0_guarded _ _ _ _ Hrun eq_refl).
Defined.

(** The two branches of the test, run in binary64. *)
Example ac1_over_ac0_nonzero :
  option_map (fun e => option_map ac1_over_ac0 (plhs e))
    (mexFunction (constant_yin 4%float 0.25%float ac_two_one) (silence 13))
  = Some (Some 0.5%float).
Proof. vm_compute. reflexivity. Qed.

Example ac1_over_ac0_zero :
  option_map (fun e => option_map ac1_over_ac0 (plhs e))
    (mexFunction (constant_yin 4%float 0.25%float ac_zero_one) (silence 13))
  = Some (Some 0%float).
Proof. vm_compute. reflexivity. Qed.

(* ================================================================== *)
(** * Complex arithmetic *)

(** In binary64, whatever the numerator, [rta_div_complex] by the
    complex zero has NaN in both fields: every product with [0.] is a
    zero or NaN, so each numerator is a zero or NaN, and the denominator
    [0*0 + 0*0] is [0.]. *)
Theorem div_complex_by_zero_binary64 (a : rta_complex_t float) :
  rta_div_complex a (rta_make_complex 0%float 0%float)
  = rta_make_complex nan nan.
Proof.
  destruct a as [ar ai]. unfold rta_div_complex, rta_make_complex. cbn.
  f_equal; apply FloatAxioms.Prim2SF_inj;
    rewrite FloatAxioms.div_spec;
    [ rewrite FloatAxioms.add_spec | rewrite FloatAxioms.sub_spec ];
    rewrite !FloatAxioms.mul_spec;
    change (Prim2SF 0%float) with (S754_zero false);
    change (Prim2SF (0 * 0 + 0 * 0)%float) with (S754_zero false);
    destruct (Prim2SF ar) as [ [ | ] | [ | ] | | [ | ] ? ? ];
    destruct (Prim2SF ai) as [ [ | ] | [ | ] | | [ | ] ? ? ];
    reflexivity.
Qed.

Section ComplexOverReals.

Local Open Scope R_scope.

Lemma norm_sq_nonzero (b : rta_complex_t R) :
  real b <> 0 \/ imag b <> 0 -> real b * real b + imag b * imag b <> 0.
Proof. intros [Hb | Hb]; nra. Qed.

(** Over the reals division undoes multiplication and multiplication
    undoes division, for every divisor other than the complex zero. *)
Theorem div_complex_inverts_mul (a b : rta_complex_t R) :
  real b <> 0 \/ imag b <> 0 ->
  rta_div_complex (rta_mul_complex a b) b = a
  /\ rta_mul_complex (rta_div_complex a b) b = a.
Proof.
  intros Hb. pose proof (norm_sq_nonzero b Hb) as Hn.
  destruct a as [ar ai], b as [br bi]. cbn in *.
  unfold rta_div_complex, rta_mul_complex. cbn.
  split; f_equal; field; exact Hn.
Qed.

(** Over the reals [rta_div_complex a b] is [a] times the conjugate of
    [b], scaled by the inverse of the squared modulus of [b]; the
    product of [b] with its conjugate is that squared modulus, a real;
    and scaling by a real is multiplying by the complex with that real
    part and no imaginary part. *)
Theorem div_complex_by_conjugate (a b : rta_complex_t R) (k : R) :
  rta_div_complex a b
  = rta_mul_complex_real (rta_mul_complex a (rta_conj b))
      (/ (real b * real b + imag b * imag b))
  /\ rta_mul_complex b (rta_conj b)
     = rta_make_complex (real b * real b + imag b * imag b) 0
  /\ rta_mul_complex_real a k = rta_mul_complex a (rta_make_complex k 0).
Proof.
  destruct a as [ar ai], b as [br bi].
  unfold rta_div_complex, rta_mul_complex_real, rta_mul_complex, rta_conj,
    rta_make_complex. cbn. unfold Rdiv.
  repeat split; f_equal; ring.
Qed.

(** Over the reals conjugation is an involution that commutes with
    sum and product, and subtraction undoes addition. *)
Theorem conj_commutes_with_operations (a b : rta_complex_t R) :
  rta_conj (rta_conj a) = a
  /\ rta_conj (rta_add_complex a b)
     = rta_add_complex (rta_conj a) (rta_conj b)
  /\ rta_conj (rta_mul_complex a b)
     = rta_mul_complex (rta_conj a) (rta_conj b)
  /\ rta_sub_complex (rta_add_complex a b) b = a.
Proof.
  destruct a as [ar ai], b as [br bi].
  unfold rta_conj, rta_add_complex, rta_mul_complex, rta_sub_complex. cbn.
  repeat split; f_equal; ring.
Qed.

End ComplexOverReals.

Lemma div_complex_inverts_mul_witness :
  ((real (rta_make_complex 3 4) <> 0 \/ imag (rta_make_complex 3 4) <> 0)
   /\ rta_div_complex
        (rta_mul_complex (rta_make_complex 1 2) (rta_make_complex 3 4))
        (rta_make_complex 3 4)
      = rta_make_complex 1 2
   /\ rta_mul_complex
        (rta_div_complex (rta_make_complex 1 2) (rta_make_complex 3 4))
        (rta_make_complex 3 4)
      = rta_make_complex 1 2)%R.
Proof.
  assert (Hb : (real (rta_make_complex 3 4) <> 0
                \/ imag (rta_make_complex 3 4) <> 0)%R)
    by (left; cbn; lra).
  exact (conj Hb
    (div_complex_inverts_mul (rta_make_complex 1%R 2%R)
       (rta_make_complex 3%R 4%R) Hb)).
Defined.

(* ================================================================== *)
(** * What the dispatcher writes, and what it reads *)

(** Unfold the dispatcher and the nine formula functions to their
    stores. *)
Ltac open_dispatch :=
  unfold rta_biquad_coefs, rta_biquad_lowpass_coefs,
    rta_biquad_highpass_coefs, rta_biquad_bandpass_constant_skirt_coefs,
    rta_biquad_bandpass_constant_peak_coefs, rta_biquad_notch_coefs,
    rta_biquad_allpass_coefs, rta_biquad_peaking_coefs,
    rta_biquad_lowshelf_coefs, rta_biquad_highshelf_coefs;
  cbv beta zeta iota.

Ltac cells := unfold store; cbn [Nat.eqb]; cbv beta iota.

Section BiquadFootprint.

Context {T : Type} `{RM : RtaMath T}.
Local Open Scope rta_scope.

(** Whatever the tag and the parameters, [rta_biquad_coefs] leaves every
    cell of [b] from index 3 on and every cell of [a] from index 2 on as
    it found it. *)
Theorem coefs_write_only_their_cells (type : rta_filter_t) (b a : buf T)
  (f0 q gain : T) (i j : nat) :
  (3 <= i)%nat -> (2 <= j)%nat ->
  fst (rta_biquad_coefs b a type f0 q gain) i = b i
  /\ snd (rta_biquad_coefs b a type f0 q gain) j = a j.
Proof.
  intros Hi Hj.
  destruct i as [ | [ | [ | i ] ] ]; try lia.
  destruct j as [ | [ | j ] ]; try lia.
  destruct type; open_dispatch; try destruct (rneb gain r1);
    cbn [fst snd]; cells; split; reflexivity.
Qed.

(** For each of the nine tags the five coefficient cells on return are
    fixed by [f0], [q] and [gain] alone, whatever the buffers held on
    entry; the one exception is [b[1]] under the notch tag. *)
Theorem coefs_determined_by_parameters (type : rta_filter_t)
  (b a b' a' : buf T) (f0 q gain : T) :
  enumerated type = true ->
  (forall i, (i < 3)%nat -> (type = rta_notch -> i <> 1%nat) ->
     fst (rta_biquad_coefs b a type f0 q gain) i
     = fst (rta_biquad_coefs b' a' type f0 q gain) i)
  /\ (forall j, (j < 2)%nat ->
     snd (rta_biquad_coefs b a type f0 q gain) j
     = snd (rta_biquad_coefs b' a' type f0 q gain) j).
Proof.
  intros He.
  destruct type; try discriminate He; open_dispatch;
    try destruct (rneb gain r1); cbn [fst snd];
    (split;
     [ intros i Hi Hn; destruct i as [ | [ | [ | i ] ] ]
     | intros j Hj; destruct j as [ | [ | j ] ] ]);
    try lia; cells; try reflexivity;
    exfalso; now apply Hn.
Qed.

End BiquadFootprint.

Lemma coefs_write_only_their_cells_witness :
  (3 <= 5)%nat /\ (2 <= 2)%nat /\
  fst (rta_biquad_coefs (zero_buf.[5 <- 7%R]) (zero_buf.[2 <- 9%R])
         rta_highshelf 0.25%R 2%R 3%R) 5 = 7%R
  /\ snd (rta_biquad_coefs (zero_buf.[5 <- 7%R]) (zero_buf.[2 <- 9%R])
            rta_highshelf 0.25%R 2%R 3%R) 2 = 9%R.
Proof.
  assert (Hi : (3 <= 5)%nat) by lia.
  assert (Hj : (2 <= 2)%nat) by lia.
  exact (conj Hi (conj Hj
    (coefs_write_only_their_cells (T := R) rta_highshelf
       (zero_buf.[5 <- 7%R]) (zero_buf.[2 <- 9%R]) 0.25%R 2%R 3%R 5 2
       Hi Hj))).
Defined.

Lemma coefs_determined_by_parameters_witness :
  enumerated rta_allpass = true /\
  (forall i, (i < 3)%nat -> (rta_allpass = rta_notch -> i <> 1%nat) ->
     fst (rta_biquad_coefs zero_buf zero_buf rta_allpass 0.25%R 2%R 3%R) i
     = fst (rta_biquad_coefs (zero_buf.[1 <- 7%R]) (zero_buf.[0 <- 9%R])
              rta_allpass 0.25%R 2%R 3%R) i)
  /\ (forall j, (j < 2)%nat ->
     snd (rta_biquad_coefs zero_buf zero_buf rta_allpass 0.25%R 2%R 3%R) j
     = snd (rta_biquad_coefs (zero_buf.[1 <- 7%R]) (zero_buf.[0 <- 9%R])
              rta_allpass 0.25%R 2%R 3%R) j).
Proof.
  exact (conj eq_refl
    (coefs_determined_by_parameters (T := R) rta_allpass
       zero_buf zero_buf (zero_buf.[1 <- 7%R]) (zero_buf.[0 <- 9%R])
       0.25%R 2%R 3%R eq_refl)).
Defined.

(* ================================================================== *)
(** * The formulae in exact arithmetic *)

Section BiquadOverReals.

Local Open Scope R_scope.

Lemma sin_pi_pos (f0 : R) : 0 < f0 -> f0 < 1 -> 0 < sin (PI * f0).
Proof.
  intros H0 H1. pose proof PI_RGT_0 as Hpi. apply sin_gt_0; nra.
Qed.

Lemma cos_pi_strict (f0 : R) :
  0 < f0 -> f0 < 1 -> -1 < cos (PI * f0) < 1.
Proof.
  intros H0 H1. pose proof PI_RGT_0 as Hpi. split.
  - rewrite <- cos_PI. apply cos_decreasing_1; nra.
  - rewrite <- cos_0. apply cos_decreasing_1; nra.
Qed.

(** The stability triangle of a normalised second-order denominator
    [1 + M/D z^-1 + N/D z^-2]. *)
Lemma stable_pair (M N D : R) :
  0 < D -> - D < N < D -> - (D + N) < M < D + N ->
  Rabs (N * (1 / D)) < 1 /\ Rabs (M * (1 / D)) < 1 + N * (1 / D).
Proof.
  intros HD [HN1 HN2] [HM1 HM2].
  assert (Hx : 0 < / D) by now apply Rinv_0_lt_compat.
  assert (HDx : D * / D = 1) by (field; lra).
  unfold Rdiv. rewrite !Rmult_1_l.
  split; apply Rabs_def1; nra.
Qed.

(** In exact arithmetic every design on the documented domain is a
    stable filter: for each of the nine tags, [f0] in (0,1), [q > 0] and
    [gain > 0], the denominator [1 + a1 z^-1 + a2 z^-2] left in [a] has
    [|a2| < 1] and [|a1| < 1 + a2], so both poles are inside the unit
    circle. *)
Theorem coefs_stable (type : rta_filter_t) (b a : buf R) (f0 q gain : R) :
  enumerated type = true ->
  0 < f0 -> f0 < 1 -> 0 < q -> 0 < gain ->
  Rabs (snd (rta_biquad_coefs b a type f0 q gain) 1%nat) < 1
  /\ Rabs (snd (rta_biquad_coefs b a type f0 q gain) 0%nat)
     < 1 + snd (rta_biquad_coefs b a type f0 q gain) 1%nat.
Proof.
  intros He H0 H1 Hq Hgain.
  pose proof (sin_pi_pos f0 H0 H1) as Hs.
  pose proof (cos_pi_strict f0 H0 H1) as [Hc1 Hc2].
  pose proof (sqrt_lt_R0 gain Hgain) as Hg.
  pose proof (sqrt_lt_R0 _ Hg) as Hsg.
  assert (Halpha : 0 < sin (PI * f0) / (2 * q))
    by (apply Rdiv_lt_0_compat; lra).
  assert (Hginv : 0 < 1 / sqrt gain)
    by (apply Rdiv_lt_0_compat; lra).
  assert (Hpk : 0 < sin (PI * f0) / (2 * q) * (1 / sqrt gain))
    by now apply Rmult_lt_0_compat.
  assert (Hsh : 0 < sin (PI * f0) * sqrt (sqrt gain) / q).
  { apply Rdiv_lt_0_compat; [ now apply Rmult_lt_0_compat | exact Hq ]. }
  assert (Hp : 0 < sqrt gain * (1 + cos (PI * f0))) by nra.
  assert (Hm : 0 < sqrt gain * (1 - cos (PI * f0))) by nra.
  destruct type; try discriminate He; open_dispatch;
    try destruct (rneb gain r1); cbn [fst snd]; cells; cbn;
    apply stable_pair; try split; nra.
Qed.

(** In exact arithmetic, on the documented domain: the lowpass has unit
    gain at DC ([z = 1]) and a zero at Nyquist ([z = -1]); the highpass
    has a zero at DC and unit gain at Nyquist; both bandpass shapes have
    zeros at DC and at Nyquist; the allpass has gain 1 at both. *)
Theorem band_edge_gains (b a : buf R) (f0 q : R) :
  0 < f0 -> f0 < 1 -> 0 < q ->
  let lp := rta_biquad_lowpass_coefs b a f0 q in
  let hp := rta_biquad_highpass_coefs b a f0 q in
  let bs := rta_biquad_bandpass_constant_skirt_coefs b a f0 q in
  let bp := rta_biquad_bandpass_constant_peak_coefs b a f0 q in
  let ap := rta_biquad_allpass_coefs b a f0 q in
  let at_dc (ba : buf R * buf R) :=
    fst ba 0%nat + fst ba 1%nat + fst ba 2%nat in
  let at_nyquist (ba : buf R * buf R) :=
    fst ba 0%nat - fst ba 1%nat + fst ba 2%nat in
  (at_dc lp = 1 + snd lp 0%nat + snd lp 1%nat /\ at_nyquist lp = 0)
  /\ (at_dc hp = 0 /\ at_nyquist hp = 1 - snd hp 0%nat + snd hp 1%nat)
  /\ (at_dc bs = 0 /\ at_nyquist bs = 0)
  /\ (at_dc bp = 0 /\ at_nyquist bp = 0)
  /\ (at_dc ap = 1 + snd ap 0%nat + snd ap 1%nat
      /\ at_nyquist ap = 1 - snd ap 0%nat + snd ap 1%nat).
Proof.
  intros H0 H1 Hq.
  pose proof (sin_pi_pos f0 H0 H1) as Hs.
  assert (Halpha : 0 < sin (PI * f0) / (2 * q))
    by (apply Rdiv_lt_0_compat; lra).
  assert (Hinv : (1 + sin (PI * f0) / (2 * q))
                 * (1 / (1 + sin (PI * f0) / (2 * q))) = 1)
    by (field; lra).
  cbv zeta. open_dispatch. cbn [fst snd]. cells. cbn.
  set (alpha := sin (PI * f0) / (2 * q)) in *.
  set (c := cos (PI * f0)).
  set (x := 1 / (1 + alpha)) in *.
  repeat split; nra.
Qed.

(** In exact arithmetic the three shapes with a gain of their own are
    flat at gain 1: the numerator left in [b] is [1, a1, a2], the
    denominator itself. *)
Theorem unit_gain_is_flat (type : rta_filter_t) (b a : buf R) (f0 q : R) :
  enumerated type = true -> gainless type = false ->
  0 < f0 -> f0 < 1 -> 0 < q ->
  let ba := rta_biquad_coefs b a type f0 q 1 in
  fst ba 0%nat = 1
  /\ fst ba 1%nat = snd ba 0%nat
  /\ fst ba 2%nat = snd ba 1%nat.
Proof.
  intros He Hg H0 H1 Hq.
  pose proof (sin_pi_pos f0 H0 H1) as Hs.
  assert (Halpha : 0 < sin (PI * f0) / (2 * q))
    by (apply Rdiv_lt_0_compat; lra).
  assert (Hsh : 0 < sin (PI * f0) / q)
    by (apply Rdiv_lt_0_compat; lra).
  destruct type; try discriminate He; try discriminate Hg;
    cbv zeta; open_dispatch; cbn [fst snd]; cells; cbn;
    rewrite ?sqrt_1; repeat split; field; lra.
Qed.

(** In exact arithmetic the highpass at [f0] is the lowpass at [1 - f0]
    with the odd coefficients [b1] and [a1] negated, that is with [z]
    replaced by [-z]; and the high shelf is the low shelf in the same
    way, for every gain. *)
Theorem high_shapes_mirror_low_shapes (b a : buf R) (f0 q gain : R) :
  let lp := rta_biquad_lowpass_coefs b a (1 - f0) q in
  let hp := rta_biquad_highpass_coefs b a f0 q in
  let ls := rta_biquad_lowshelf_coefs b a (1 - f0) q gain in
  let hs := rta_biquad_highshelf_coefs b a f0 q gain in
  (fst hp 0%nat = fst lp 0%nat /\ fst hp 1%nat = - fst lp 1%nat
   /\ fst hp 2%nat = fst lp 2%nat
   /\ snd hp 0%nat = - snd lp 0%nat /\ snd hp 1%nat = snd lp 1%nat)
  /\ (fst hs 0%nat = fst ls 0%nat /\ fst hs 1%nat = - fst ls 1%nat
      /\ fst hs 2%nat = fst ls 2%nat
      /\ snd hs 0%nat = - snd ls 0%nat /\ snd hs 1%nat = snd ls 1%nat).
Proof.
  cbv zeta. open_dispatch. cbn [fst snd]. cells. cbn.
  replace (PI * (1 - f0)) with (PI - PI * f0) by ring.
  rewrite sin_PI_x, Rtrigo_facts.cos_pi_minus.
  replace (1 + sqrt gain - (sqrt gain - 1) * - cos (PI * f0))
    with (1 + sqrt gain + (sqrt gain - 1) * cos (PI * f0)) by ring.
  replace (sqrt gain + 1 + (sqrt gain - 1) * - cos (PI * f0))
    with (sqrt gain + 1 - (sqrt gain - 1) * cos (PI * f0)) by ring.
  unfold Rdiv. repeat split; ring.
Qed.

(** In exact arithmetic the constant-skirt bandpass is the constant-peak
    bandpass with the numerator multiplied by [q]: its peak gain is [q],
    as the comment in the source says. *)
Theorem bandpass_skirt_is_q_times_peak (b a : buf R) (f0 q : R) :
  q <> 0 ->
  let bs := rta_biquad_bandpass_constant_skirt_coefs b a f0 q in
  let bp := rta_biquad_bandpass_constant_peak_coefs b a f0 q in
  (forall i, (i < 3)%nat -> fst bs i = q * fst bp i)
  /\ snd bs = snd bp.
Proof.
  intros Hq. cbv zeta. open_dispatch. cbn [fst snd].
  split; [ | reflexivity ].
  intros i Hi. destruct i as [ | [ | [ | i ] ] ]; try lia; cells; cbn;
    set (A := 1 / (1 + sin (PI * f0) / (2 * q)));
    field; exact Hq.
Qed.

(** In exact arithmetic a cut undoes the boost of the same amount:
    for the peaking and the two shelving shapes, the design for gain
    [1 / gain] is the inverse filter of the design for [gain].  With
    [b0 + b1 z^-1 + b2 z^-2] over [1 + a1 z^-1 + a2 z^-2] the boost, the
    cut has numerator [(1, a1, a2) / b0] and denominator
    [(b0, b1, b2) / b0]. *)
Theorem cut_inverts_boost (type : rta_filter_t) (b a : buf R)
  (f0 q gain : R) :
  enumerated type = true -> gainless type = false ->
  0 < f0 -> f0 < 1 -> 0 < q -> 0 < gain ->
  let boost := rta_biquad_coefs b a type f0 q gain in
  let cut := rta_biquad_coefs b a type f0 q (1 / gain) in
  fst boost 0%nat <> 0
  /\ fst cut 0%nat = 1 / fst boost 0%nat
  /\ fst cut 1%nat = snd boost 0%nat / fst boost 0%nat
  /\ fst cut 2%nat = snd boost 1%nat / fst boost 0%nat
  /\ snd cut 0%nat = fst boost 1%nat / fst boost 0%nat
  /\ snd cut 1%nat = fst boost 2%nat / fst boost 0%nat.
Proof.
  intros He Hgl H0 H1 Hq Hgain.
  pose proof (sin_pi_pos f0 H0 H1) as Hs.
  pose proof (cos_pi_strict f0 H0 H1) as [Hc1 Hc2].
  pose proof (sqrt_lt_R0 gain Hgain) as Hg.
  pose proof (sqrt_lt_R0 _ Hg) as Hsg.
  assert (Hgg : sqrt (sqrt gain) * sqrt (sqrt gain) = sqrt gain)
    by (apply sqrt_sqrt; lra).
  assert (Hqi : 0 < / q) by now apply Rinv_0_lt_compat.
  destruct type; try discriminate He; try discriminate Hgl;
    cbv zeta; open_dispatch; cbn [fst snd]; cells; cbn;
    unfold Rdiv; rewrite ?Rmult_1_l, ?sqrt_inv;
    set (s := sin (PI * f0)) in *; set (c := cos (PI * f0)) in *;
    set (w := sqrt (sqrt gain)) in *;
    rewrite <- ?Hgg.
  - assert (Hd1 : 1 + s * / (2 * q) * (w * w) <> 0).
    { assert (0 < s * / (2 * q) * (w * w)); [ | lra ].
      apply Rmult_lt_0_compat; [ | nra ].
      apply Rmult_lt_0_compat; [ lra | apply Rinv_0_lt_compat; lra ]. }
    assert (Hd2 : 1 + s * / (2 * q) * / (w * w) <> 0).
    { assert (0 < s * / (2 * q) * / (w * w)); [ | lra ].
      apply Rmult_lt_0_compat; [ | apply Rinv_0_lt_compat; nra ].
      apply Rmult_lt_0_compat; [ lra | apply Rinv_0_lt_compat; lra ]. }
    repeat split;
      [ intros Hz; apply Rmult_integral in Hz; destruct Hz as [Hz | Hz];
        [ lra | revert Hz; apply Rinv_neq_0_compat; exact Hd2 ]
      | field; repeat split; try lra; nra .. ].
  - assert (Hp : 0 < w * w * (1 + c)) by nra.
    assert (Hm : 0 < w * w * (1 - c)) by nra.
    assert (Hswq : 0 < s * w * / q).
    { apply Rmult_lt_0_compat; [ nra | exact Hqi ]. }
    assert (Hqp : 0 < q * (w * w * (1 + c))) by nra.
    assert (Hqm : 0 < q * (w * w * (1 - c))) by nra.
    assert (Hq1 : 0 < q * (1 + c)) by nra.
    assert (Hq2 : 0 < q * (1 - c)) by nra.
    assert (Hsw : 0 < s * w) by nra.
    repeat split;
      [ intros Hz; apply Rmult_integral in Hz; destruct Hz as [Hz | Hz];
        [ apply Rmult_integral in Hz; destruct Hz as [Hz | Hz]; nra
        | revert Hz; apply Rinv_neq_0_compat; nra ]
      | field; repeat split; try lra; try nra .. ].
  - assert (Hp : 0 < w * w * (1 + c)) by nra.
    assert (Hm : 0 < w * w * (1 - c)) by nra.
    assert (Hswq : 0 < s * w * / q).
    { apply Rmult_lt_0_compat; [ nra | exact Hqi ]. }
    assert (Hqp : 0 < q * (w * w * (1 + c))) by nra.
    assert (Hqm : 0 < q * (w * w * (1 - c))) by nra.
    assert (Hq1 : 0 < q * (1 + c)) by nra.
    assert (Hq2 : 0 < q * (1 - c)) by nra.
    assert (Hsw : 0 < s * w) by nra.
    repeat split;
      [ intros Hz; apply Rmult_integral in Hz; destruct Hz as [Hz | Hz];
        [ apply Rmult_integral in Hz; destruct Hz as [Hz | Hz]; nra
        | revert Hz; apply Rinv_neq_0_compat; nra ]
      | field; repeat split; try lra; try nra .. ].
Qed.

End BiquadOverReals.

Lemma coefs_stable_witness :
  (enumerated rta_lowshelf = true /\
   0 < 0.25 /\ 0.25 < 1 /\ 0 < 2 /\ 0 < 3 /\
   Rabs (snd (rta_biquad_coefs zero_buf zero_buf rta_lowshelf
                0.25 2 3) 1%nat) < 1
   /\ Rabs (snd (rta_biquad_coefs zero_buf zero_buf rta_lowshelf
                   0.25 2 3) 0%nat)
      < 1 + snd (rta_biquad_coefs zero_buf zero_buf rta_lowshelf
                   0.25 2 3) 1%nat)%R.
Proof.
  assert (H1 : (0 < 0.25)%R) by lra.
  assert (H2 : (0.25 < 1)%R) by lra.
  assert (H3 : (0 < 2)%R) by lra.
  assert (H4 : (0 < 3)%R) by lra.
  exact (conj eq_refl (conj H1 (conj H2 (conj H3 (conj H4
    (coefs_stable rta_lowshelf zero_buf zero_buf 0.25%R 2%R 3%R
       eq_refl H1 H2 H3 H4)))))).
Defined.

Lemma band_edge_gains_witness :
  (0 < 0.25 /\ 0.25 < 1 /\ 0 < 2 /\
   fst (rta_biquad_lowpass_coefs zero_buf zero_buf 0.25 2) 0%nat
   - fst (rta_biquad_lowpass_coefs zero_buf zero_buf 0.25 2) 1%nat
   + fst (rta_biquad_lowpass_coefs zero_buf zero_buf 0.25 2) 2%nat = 0
   /\ fst (rta_biquad_highpass_coefs zero_buf zero_buf 0.25 2) 0%nat
      + fst (rta_biquad_highpass_coefs zero_buf zero_buf 0.25 2) 1%nat
      + fst (rta_biquad_highpass_coefs zero_buf zero_buf 0.25 2) 2%nat
      = 0)%R.
Proof.
  assert (H1 : (0 < 0.25)%R) by lra.
  assert (H2 : (0.25 < 1)%R) by lra.
  assert (H3 : (0 < 2)%R) by lra.
  pose proof (band_edge_gains zero_buf zero_buf 0.25%R 2%R H1 H2 H3)
    as [ [_ Hlp] [ [Hhp _] _ ] ].
  exact (conj H1 (conj H2 (conj H3 (conj Hlp Hhp)))).
Defined.

Lemma unit_gain_is_flat_witness :
  (enumerated rta_highshelf = true /\ gainless rta_highshelf = false /\
   0 < 0.25 /\ 0.25 < 1 /\ 0 < 2 /\
   let ba := rta_biquad_coefs zero_buf zero_buf rta_highshelf 0.25 2 1 in
   fst ba 0%nat = 1
   /\ fst ba 1%nat = snd ba 0%nat
   /\ fst ba 2%nat = snd ba 1%nat)%R.
Proof.
  assert (H1 : (0 < 0.25)%R) by lra.
  assert (H2 : (0.25 < 1)%R) by lra.
  assert (H3 : (0 < 2)%R) by lra.
  exact (conj eq_refl (conj eq_refl (conj H1 (conj H2 (conj H3
    (unit_gain_is_flat rta_highshelf zero_buf zero_buf 0.25%R 2%R
       eq_refl eq_refl H1 H2 H3)))))).
Defined.

Lemma bandpass_skirt_is_q_times_peak_witness :
  (3 <> 0 /\
   (forall i, (i < 3)%nat ->
      fst (rta_biquad_bandpass_constant_skirt_coefs zero_buf zero_buf
             0.25 3) i
      = 3 * fst (rta_biquad_bandpass_constant_peak_coefs zero_buf zero_buf
                   0.25 3) i)
   /\ snd (rta_biquad_bandpass_constant_skirt_coefs zero_buf zero_buf
             0.25 3)
      = snd (rta_biquad_bandpass_constant_peak_coefs zero_buf zero_buf
               0.25 3))%R.
Proof.
  assert (H3 : (3 <> 0)%R) by lra.
  exact (conj H3
    (bandpass_skirt_is_q_times_peak zero_buf zero_buf 0.25%R 3%R H3)).
Defined.

Lemma cut_inverts_boost_witness :
  (enumerated rta_peaking = true /\ gainless rta_peaking = false /\
   0 < 0.25 /\ 0.25 < 1 /\ 0 < 2 /\ 0 < 4 /\
   let boost := rta_biquad_coefs zero_buf zero_buf rta_peaking 0.25 2 4 in
   let cut :=
     rta_biquad_coefs zero_buf zero_buf rta_peaking 0.25 2 (1 / 4) in
   fst boost 0%nat <> 0
   /\ fst cut 0%nat = 1 / fst boost 0%nat
   /\ fst cut 1%nat = snd boost 0%nat / fst boost 0%nat
   /\ fst cut 2%nat = snd boost 1%nat / fst boost 0%nat
   /\ snd cut 0%nat = fst boost 1%nat / fst boost 0%nat
   /\ snd cut 1%nat = fst boost 2%nat / fst boost 0%nat)%R.
Proof.
  assert (H1 : (0 < 0.25)%R) by lra.
  assert (H2 : (0.25 < 1)%R) by lra.
  assert (H3 : (0 < 2)%R) by lra.
  assert (H4 : (0 < 4)%R) by lra.
  exact (conj eq_refl (conj eq_refl (conj H1 (conj H2 (conj H3 (conj H4
    (cut_inverts_boost rta_peaking zero_buf zero_buf 0.25%R 2%R 4%R
       eq_refl eq_refl H1 H2 H3 H4))))))).
Defined.

(* ================================================================== *)
(** * Edges of the YIN entry point *)

Section YinEdges.

Context {D T : Type} {AD : RtaReal D} {AT : RtaReal T} {MS : MexScalars D T}.
Variable rta_yin : buf T -> Z -> list T -> Z -> D -> T -> T * T * buf T.
Local Open Scope rta_scope.

Lemma uint_range (z : Z) : (0 <= uint z < uint_modulus)%Z.
Proof. unfold uint. apply Z.mod_pos_bound. reflexivity. Qed.

Lemma ac_size_range (args : mex_inputs) (ac_size : Z) :
  ac_size_of args = Some ac_size -> (0 <= ac_size < uint_modulus)%Z.
Proof.
  unfold ac_size_of.
  destruct (ceil_to_uint _) as [n | ]; [ | discriminate ].
  intros Hac. injection Hac as Hac. subst ac_size. apply uint_range.
Qed.

(** An empty input is never processed: whenever the window size is
    defined, the call creates no output and prints the diagnostic. *)
Theorem empty_input_is_diagnosed (args : mex_inputs) (ac_size : Z) :
  ac_size_of args = Some ac_size ->
  input args = [] ->
  mexFunction rta_yin args
  = Some {| plhs := None;
            printed :=
              [ {| points_expected := uint (ac_size + 1);
                   points_recommended := uint (2 * ac_size);
                   diag_min_freq := min_freq args;
                   diag_sample_rate := sample_rate args |} ] |}.
Proof.
  intros Hac Hin. pose proof (ac_size_range args ac_size Hac) as Hr.
  unfold mexFunction. rewrite Hac.
  unfold input_size_of. rewrite Hin. cbn [List.length Z.of_nat].
  change (uint 0) with 0%Z.
  destruct (Z.ltb_spec ac_size 0) as [Hlt | _]; [ lia | reflexivity ].
Qed.

(** When outputs are created, the divisor under the square root of
    [energy] is the number of samples beyond the window,
    [input_size - ac_size]: the unsigned subtraction does not wrap, and
    the divisor is at least 1. *)
Theorem energy_divisor_is_sample_excess (args : mex_inputs) (ac_size : Z) :
  ac_size_of args = Some ac_size ->
  (ac_size < input_size_of args)%Z ->
  exists o : yin_outputs,
    mexFunction rta_yin args = Some {| plhs := Some o; printed := [] |}
    /\ (1 <= input_size_of args - ac_size < uint_modulus)%Z
    /\ energy o
       = rta_sqrt (autocorrelation o 0
                   / real_of_uint (input_size_of args - ac_size)).
Proof.
  intros Hac Hlt. pose proof (ac_size_range args ac_size Hac) as Hr.
  pose proof (uint_range (Z.of_nat (List.length (input args)))) as Hi.
  fold (input_size_of args) in Hi.
  unfold mexFunction. rewrite Hac.
  destruct (Z.ltb_spec ac_size (input_size_of args)) as [_ | Hge];
    [ | lia ].
  destruct (rta_yin _ _ _ _ _ _) as [ [lag abs_min] ac ].
  eexists. split; [ reflexivity | ]. split; [ lia | ]. cbn.
  rewrite (uint_small (input_size_of args - ac_size)) by lia.
  reflexivity.
Qed.

(** The window size is computed in [unsigned int]: when the rounded-up
    ratio is one of the two largest [unsigned int] values, adding 2
    wraps and the window size is 0 or 1. *)
Theorem window_size_wraps (args : mex_inputs) (n : Z) :
  ceil_to_uint (sample_rate args / min_freq args) = Some n ->
  (uint_modulus - 2 <= n < uint_modulus)%Z ->
  ac_size_of args = Some (n + 2 - uint_modulus)%Z
  /\ (0 <= n + 2 - uint_modulus < 2)%Z.
Proof.
  intros Hc Hn. unfold ac_size_of. rewrite Hc. split; [ | lia ].
  f_equal. unfold uint. symmetry.
  apply (Z.mod_unique (n + 2) uint_modulus 1);
    unfold uint_modulus in *; lia.
Qed.

End YinEdges.

(** In binary64, a minimum frequency of [0.] makes the ratio infinite or
    NaN whatever the sample rate is, and the conversion to
    [unsigned int] that gives the window size is then undefined: the
    entry point does not test for it. *)
Theorem zero_min_freq_is_undefined
  (rta_yin : buf float -> Z -> list float -> Z -> float -> float
             -> float * float * buf float)
  (args : mex_inputs (D := float)) :
  min_freq args = 0%float ->
  mexFunction rta_yin args = None.
Proof.
  intros Hf. unfold mexFunction, ac_size_of. rewrite Hf. cbn.
  unfold binary64_ceil_to_uint, binary64_ceil.
  rewrite FloatAxioms.div_spec.
  change (Prim2SF 0%float) with (S754_zero false).
  destruct (Prim2SF (sample_rate args)) as [ [ | ] | [ | ] | | [ | ] ? ? ];
    reflexivity.
Qed.

Lemma empty_input_is_diagnosed_witness :
  ac_size_of (silence 0) = Some 12%Z
  /\ input (silence 0) = []
  /\ mexFunction (constant_yin 4%float 0.25%float ac_two_one) (silence 0)
     = Some {| plhs := None;
               printed :=
                 [ {| points_expected := uint (12 + 1);
                      points_recommended := uint (2 * 12);
                      diag_min_freq := min_freq (silence 0);
                      diag_sample_rate := sample_rate (silence 0) |} ] |}.
Proof.
  assert (Hac : ac_size_of (silence 0) = Some 12%Z)
    by (vm_compute; reflexivity).
  exact (conj Hac (conj eq_refl
    (empty_input_is_diagnosed (constant_yin 4%float 0.25%float ac_two_one)
       (silence 0) 12 Hac eq_refl))).
Defined.

Lemma energy_divisor_is_sample_excess_witness :
  ac_size_of (silence 20) = Some 12%Z
  /\ (12 < input_size_of (silence 20))%Z
  /\ exists o : yin_outputs,
       mexFunction (constant_yin 4%float 0.25%float ac_two_one) (silence 20)
       = Some {| plhs := Some o; printed := [] |}
       /\ (1 <= input_size_of (silence 20) - 12 < uint_modulus)%Z
       /\ energy o
          = (rta_sqrt (autocorrelation o 0
                       / real_of_uint (input_size_of (silence 20) - 12)))%rta.
Proof.
  assert (Hac : ac_size_of (silence 20) = Some 12%Z)
    by (vm_compute; reflexivity).
  assert (Hlt : (12 < input_size_of (silence 20))%Z)
    by (vm_compute; reflexivity).
  exact (conj Hac (conj Hlt
    (energy_divisor_is_sample_excess
       (constant_yin 4%float 0.25%float ac_two_one) (silence 20) 12
       Hac Hlt))).
Defined.

(** A sample rate of 4294967295 Hz against a minimum frequency of
    1 Hz. *)
Lemma window_size_wraps_witness :
  ceil_to_uint (sample_rate (silence_at 4294967295 1 2)
                / min_freq (silence_at 4294967295 1 2))%rta
  = Some 4294967295%Z
  /\ (uint_modulus - 2 <= 4294967295 < uint_modulus)%Z
  /\ ac_size_of (silence_at 4294967295 1 2)
     = Some (4294967295 + 2 - uint_modulus)%Z
  /\ (0 <= 4294967295 + 2 - uint_modulus < 2)%Z.
Proof.
  assert (Hc : ceil_to_uint (sample_rate (silence_at 4294967295 1 2)
                             / min_freq (silence_at 4294967295 1 2))%rta
               = Some 4294967295%Z) by (vm_compute; reflexivity).
  assert (Hn : (uint_modulus - 2 <= 4294967295 < uint_modulus)%Z)
    by (unfold uint_modulus; lia).
  exact (conj Hc (conj Hn
    (window_size_wraps (silence_at 4294967295 1 2) 4294967295 Hc Hn))).
Defined.

Lemma zero_min_freq_is_undefined_witness :
  min_freq (silence_at 44100 0 4096) = 0%float
  /\ mexFunction (constant_yin 4%float 0.25%float ac_two_one)
       (silence_at 44100 0 4096) = None.
Proof.
  exact (conj eq_refl
    (zero_min_freq_is_undefined
       (constant_yin 4%float 0.25%float ac_two_one)
       (silence_at 44100 0 4096) eq_refl)).
Defined.

(* ================================================================== *)
(** * The formulae in binary64 at [q = 0] *)

Lemma div_zero_unbounded (x : float) : unbounded (x / 0)%float.
Proof.
  unfold unbounded. rewrite FloatAxioms.div_spec.
  change (Prim2SF 0%float) with (S754_zero false).
  destruct (Prim2SF x) as [ [ | ] | [ | ] | | [ | ] ? ? ]; exact I.
Qed.

Lemma mul_unbounded (y g : float) :
  unbounded y -> unbounded (y * g)%float.
Proof.
  unfold unbounded. rewrite FloatAxioms.mul_spec.
  destruct (Prim2SF y) as [ [ | ] | [ | ] | | [ | ] ? ? ];
    try contradiction; intros _;
    destruct (Prim2SF g) as [ [ | ] | [ | ] | | [ | ] ? ? ]; exact I.
Qed.

(** [(x - y) * (1 / (x + y))] with [y] infinite or NaN: the second
    factor is a zero or NaN, the first is infinite or NaN. *)
Lemma normalised_a2_nan (x y : float) :
  unbounded y -> ((x - y) * (1 / (x + y)))%float = nan.
Proof.
  unfold unbounded. intros Hy. apply FloatAxioms.Prim2SF_inj.
  rewrite FloatAxioms.mul_spec, FloatAxioms.div_spec,
    FloatAxioms.sub_spec, FloatAxioms.add_spec.
  destruct (Prim2SF y) as [ [ | ] | [ | ] | | [ | ] ? ? ];
    try contradiction;
    destruct (Prim2SF x) as [ [ | ] | [ | ] | | [ | ] ? ? ];
    reflexivity.
Qed.

(** In binary64, with [q = 0.], the coefficient [a2] that
    [rta_biquad_coefs] leaves in [a[1]] is NaN: for each of the nine
    tags, every [f0] and [gain], and whatever values the C library gives
    to the sine and the cosine. *)
Theorem q_zero_gives_nan_binary64 (libm_sin libm_cos : float -> float)
  (type : rta_filter_t) (b a : buf float) (f0 gain : float) :
  enumerated type = true ->
  snd (rta_biquad_coefs (RM := binary64_math libm_sin libm_cos)
         b a type f0 0%float gain) 1 = nan.
Proof.
  intros He.
  destruct type; try discriminate He; open_dispatch;
    match goal with
    | |- context [rneb gain r1] => destruct (rneb gain r1)
    | |- _ => idtac
    end;
    cbn [fst snd]; cells; cbn;
    try change (2 * 0)%float with 0%float;
    apply normalised_a2_nan;
    try apply mul_unbounded; apply div_zero_unbounded.
Qed.

(** The identity stands in for the C library here: the statement holds
    for every pair of functions. *)
Lemma q_zero_gives_nan_binary64_witness :
  enumerated rta_lowpass = true
  /\ snd (rta_biquad_coefs (RM := binary64_math (fun x => x) (fun x => x))
            (fun _ => 0%float) (fun _ => 0%float) rta_lowpass
            0.5%float 0%float 1%float) 1 = nan.
Proof.
  exact (conj eq_refl
    (q_zero_gives_nan_binary64 (fun x => x) (fun x => x) rta_lowpass
       (fun _ => 0%float) (fun _ => 0%float) 0.5%float 1%float eq_refl)).
Defined.

Lemma allpass_b2_is_one_witness :
  (0 < 0.25 /\ 0.25 < 1 /\ 0 < 2 /\
   fst (rta_biquad_allpass_coefs zero_buf zero_buf 0.25 2) 2%nat = 1)%R.
Proof.
  assert (H1 : (0 < 0.25)%R) by lra.
  assert (H2 : (0.25 < 1)%R) by lra.
  assert (H3 : (0 < 2)%R) by lra.
  exact (conj H1 (conj H2 (conj H3
    (allpass_b2_is_one zero_buf zero_buf 0.25%R 2%R H1 H2 H3)))).
Defined.

(* ================================================================== *)
(** * Gain linearity and the notch *)

(** With gain 1 the dispatcher hands the notch [b[1]] through unchanged,
    over the reals. *)
Lemma notch_b1_through_unit_gain (b a : buf R) (f0 q : R) :
  fst (rta_biquad_coefs b a rta_notch f0 q 1%R) 1 = b 1.
Proof.
  open_dispatch. cbn [rneb real_arith r1].
  destruct (Req_dec_T 1 1) as [_ | N]; [ | contradiction ].
  cbn [fst]. cells. reflexivity.
Qed.


Section NotchGain.

Context {T : Type} `{RM : RtaMath T} {L : RtaRealLaws T}.
Local Open Scope rta_scope.

(** For the notch tag the cells the formula does compute, [b[0]] and
    [b[2]], and the [a] buffer are linear in the gain between calls on
    unrelated buffers; [b[1]] is the cell that is not. *)
Lemma notch_scaling_outside_b1 (b a b' a' : buf T) (f0 q k : T) :
  (forall i, (i < 3)%nat -> i <> 1%nat ->
     fst (rta_biquad_coefs b a rta_notch f0 q k) i
     = k * fst (rta_biquad_coefs b' a' rta_notch f0 q r1) i)
  /\ (forall j, (j < 2)%nat ->
     snd (rta_biquad_coefs b a rta_notch f0 q k) j
     = snd (rta_biquad_coefs b' a' rta_notch f0 q r1) j).
Proof.
  open_dispatch. rewrite (proj2 (rneb_one r1) eq_refl).
  destruct (rneb k r1) eqn:Ek; cbn [fst snd];
    (split;
     [ intros i Hi Hn; destruct i as [ | [ | [ | i ] ] ]
     | intros j Hj; destruct j as [ | [ | j ] ] ]);
    try lia; try (now contradiction Hn); cells;
    first [ reflexivity
          | apply rmul_comm
          | apply rneb_one in Ek; subst k; symmetry; apply rmul_1_l ].
Qed.

End NotchGain.

(** C4.  Gain linearity fails for the notch shape.  Over the reals, with
    [f0 = 0.25], [q = 2] and [k = 3], a call for gain 3 on a buffer
    whose [b[1]] holds 7 leaves [b[1] = 21], a call for gain 1 on a
    buffer whose [b[1]] holds 0 leaves [b[1] = 0], and 21 is not 3 times
    0: [rta_biquad_notch_coefs] stores [b[1]] back into itself, so the
    middle numerator coefficient is whatever the caller's buffer held,
    not a function of the parameters. *)
Theorem notch_breaks_gain_linearity :
  (gainless rta_notch = true
   /\ 0 < 0.25 /\ 0.25 < 1 /\ 0 < 2 /\ 0 < 3
   /\ fst (rta_biquad_coefs (zero_buf.[1 <- 7]) zero_buf rta_notch
             0.25 2 3) 1%nat = 21
   /\ fst (rta_biquad_coefs zero_buf zero_buf rta_notch 0.25 2 1) 1%nat = 0
   /\ fst (rta_biquad_coefs (zero_buf.[1 <- 7]) zero_buf rta_notch
             0.25 2 3) 1%nat
      <> 3 * fst (rta_biquad_coefs zero_buf zero_buf rta_notch
                    0.25 2 1) 1%nat)%R.
Proof.
  assert (H3 : fst (rta_biquad_coefs (zero_buf.[1 <- 7%R]) zero_buf
                      rta_notch 0.25%R 2%R 3%R) 1%nat = 21%R).
  { open_dispatch. cbn [rneb real_arith r1].
    destruct (Req_dec_T 3 1) as [E | _]; [ lra | ].
    cbn [fst]. cells. cbn. lra. }
  assert (H1 : fst (rta_biquad_coefs zero_buf zero_buf rta_notch
                      0.25%R 2%R 1%R) 1%nat = 0%R).
  { open_dispatch. cbn [rneb real_arith r1].
    destruct (Req_dec_T 1 1) as [_ | N]; [ | contradiction ].
    cbn [fst]. cells. reflexivity. }
  repeat split; lra.
Qed.

(** The same on one buffer used twice: after a call for gain 3 and then
    a call for gain 1 on the buffers the first call left, [b[1]] still
    holds the 21 of the first call, which is not 3 times itself. *)
Lemma notch_gain_on_a_reused_buffer :
  (let first := rta_biquad_coefs (zero_buf.[1 <- 7]) zero_buf rta_notch
                  0.25 2 3 in
   let second := rta_biquad_coefs (fst first) (snd first) rta_notch
                   0.25 2 1 in
   fst first 1%nat = 21 /\ fst second 1%nat = 21
   /\ fst first 1%nat <> 3 * fst second 1%nat)%R.
Proof.
  cbv zeta.
  assert (H3 : fst (rta_biquad_coefs (zero_buf.[1 <- 7%R]) zero_buf
                      rta_notch 0.25%R 2%R 3%R) 1%nat = 21%R).
  { open_dispatch. cbn [rneb real_arith r1].
    destruct (Req_dec_T 3 1) as [E | _]; [ lra | ].
    cbn [fst]. cells. cbn. lra. }
  assert (H1 : fst (rta_biquad_coefs
                      (fst (rta_biquad_coefs (zero_buf.[1 <- 7%R]) zero_buf
                              rta_notch 0.25%R 2%R 3%R))
                      (snd (rta_biquad_coefs (zero_buf.[1 <- 7%R]) zero_buf
                              rta_notch 0.25%R 2%R 3%R))
                      rta_notch 0.25%R 2%R 1%R) 1%nat = 21%R).
  { rewrite (notch_b1_through_unit_gain _ _ 0.25%R 2%R). exact H3. }
  repeat split; [ exact H3 | exact H1 | rewrite H3, H1; lra ].
Qed.
